(** * Ego vehicle sensor relay: frame conversion, publishing and teardown

    A shallow embedding of [src/tnex_driver/src/simulator/ego_vehicle.py].

    - numpy arrays are views: a base buffer, an offset, a shape and strides;
    - the raw capture buffer lives in a store indexed by locations, so that
      the in-place colour conversion of a frame is visible through every
      view taken on it;
    - Python exceptions are values of [exn]; code runs in a state and
      exception monad over a [world] made of the store, the replies of the
      external collaborators still to come, and the trace of effects. *)

From Stdlib Require Import ZArith Lia.
From stdpp Require Import base list strings functions.

Open Scope Z_scope.
Open Scope nat_scope.
Open Scope string_scope.

(** ** Exceptions and outcomes *)

Inductive exn :=
| ValueError (size : nat) (newshape : list nat)
    (* numpy: cannot reshape array of size .. into shape .. *)
| IndexError (msg : string)
| CvBridgeError (msg : string)
| ROSInterruptException (msg : string)
| UnboundLocalError (var : string)
| AttributeError (msg : string)
| RuntimeError (msg : string)
| KeyboardInterrupt.

Inductive result (A : Type) :=
| Ok (a : A)
| Raise (e : exn)
| Diverge.
Arguments Ok {A} a.
Arguments Raise {A} e.
Arguments Diverge {A}.

(** ** The store of raw buffers *)

Abbreviation byte := Byte.byte.
Abbreviation loc := nat (only parsing).
Abbreviation store := (nat -> list Byte.byte) (only parsing).

(** ** numpy arrays as strided views *)

Record ndarray := mk_ndarray {
  base : loc;
  offset : Z;
  shape : list nat;
  strides : list Z
}.

Definition prod_shape (sh : list nat) : nat := foldr Nat.mul 1 sh.

Definition size (a : ndarray) : nat := prod_shape (shape a).

(* strides of a C-contiguous array of bytes *)
Fixpoint c_strides (sh : list nat) : list Z :=
  match sh with
  | [] => []
  | _ :: t => Z.of_nat (prod_shape t) :: c_strides t
  end.

(* np.frombuffer(buffer, dtype=uint8): a flat view, no copy *)
Definition frombuffer (h : store) (b : loc) : ndarray :=
  {| base := b; offset := 0; shape := [length (h b)]; strides := [1%Z] |}.

(* np.reshape(a, newshape) on the flat contiguous array that frombuffer
   gives: a view with the new shape when the sizes agree, else ValueError *)
Definition reshape (a : ndarray) (newshape : list nat) : result ndarray :=
  if decide (size a = prod_shape newshape)
  then Ok {| base := base a; offset := offset a;
             shape := newshape; strides := c_strides newshape |}
  else Raise (ValueError (size a) newshape).

(* a[:, :, :k], on the three-dimensional arrays that reach it *)
Definition slice_upto (k : nat) (a : ndarray) : result ndarray :=
  match shape a with
  | [d0; d1; d2] =>
      Ok {| base := base a; offset := offset a;
            shape := [d0; d1; Nat.min k d2]; strides := strides a |}
  | _ => Raise (IndexError "too many indices for array")
  end.

(* a[:, :, ::-1], on the three-dimensional arrays that reach it *)
Definition reverse_last (a : ndarray) : result ndarray :=
  match shape a, strides a with
  | [d0; d1; d2], [s0; s1; s2] =>
      Ok {| base := base a;
            offset := (offset a + Z.of_nat (d2 - 1) * s2)%Z;
            shape := [d0; d1; d2];
            strides := [s0; s1; (- s2)%Z] |}
  | _, _ => Raise (IndexError "too many indices for array")
  end.

Definition read_at (bytes : list byte) (z : Z) : option byte :=
  if (z <? 0)%Z then None else bytes !! Z.to_nat z.

(* the elements of a view in C order, each read through the store *)
Fixpoint elems (bytes : list byte) (off : Z) (sh : list nat) (st : list Z)
  : list (option byte) :=
  match sh, st with
  | [], _ => [read_at bytes off]
  | n :: sh', s :: st' =>
      flat_map (fun i => elems bytes (off + Z.of_nat i * s)%Z sh' st') (seq 0 n)
  | _ :: _, [] => []
  end.

(* a.tobytes() *)
Definition tobytes (h : store) (a : ndarray) : list byte :=
  omap id (elems (h (base a)) (offset a) (shape a) (strides a)).

(* a[i, j, c] *)
Definition getitem (h : store) (a : ndarray) (i j c : nat) : option byte :=
  match shape a, strides a with
  | [d0; d1; d2], [s0; s1; s2] =>
      if decide (i < d0 /\ j < d1 /\ c < d2)
      then read_at (h (base a))
             (offset a + Z.of_nat i * s0 + Z.of_nat j * s1 + Z.of_nat c * s2)%Z
      else None
  | _, _ => None
  end.

(** ** The capture object *)

Record CarlaImage := {
  raw_data : loc;
  height : nat;
  width : nat
}.

Definition bind_result {A B} (r : result A) (k : A -> result B) : result B :=
  match r with
  | Ok a => k a
  | Raise e => Raise e
  | Diverge => Diverge
  end.

(* get_cv_image, lines 16-21 *)
Definition get_cv_image (h : store) (carla_image : CarlaImage) : result ndarray :=
  let cv_image := frombuffer h (raw_data carla_image) in
  bind_result (reshape cv_image [height carla_image; width carla_image; 4])
    (fun cv_image =>
  bind_result (slice_upto 3 cv_image) (fun cv_image =>
  reverse_last cv_image)).


(** ** The world: store, replies of the collaborators, trace of effects *)

(* what an external call (simulator, cv_bridge, message bus) answers *)
Inductive reply :=
| Normal
| Throws (e : exn).

(* sensor_msgs.msg.Image, as cv_bridge fills it from an array *)
Record Image := {
  msg_height : nat;
  msg_width : nat;
  encoding : string;
  data : list byte
}.

(* carla.ColorConverter *)
Inductive ColorConverter :=
| Raw
| Depth
| LogarithmicDepth
| CityScapesPalette.

(* the five actors main spawns, named after the variables that hold them *)
Inductive actor :=
| EgoVehicle
| CameraMainRgb
| CameraMainSemanticSegmentation
| CameraMainDepth
| Camera3pvRgb.

(* the lambdas main registers with listen, lines 101-106 *)
Inductive callback :=
| CbPublishImage (topic : string)
| CbPublishImageAndViz (topic : string) (camera_type : string).

Inductive event :=
| LogErr (e : exn)
| LogInfo (msg : string)
| NewPublisher (topic : string)
| Publish (topic : string) (m : Image)
| Convert (b : loc) (cc : ColorConverter)
| Spawned (a : actor) (attach_to : option actor)
| Listen (a : actor) (cb : callback)
| Destroy (a : actor).

(* what the simulator offers when main configures the vehicle *)
Record simulator := {
  has_color : bool;
  recommended_values : list string;
  spawn_points : list nat;
  random_pick : nat
}.

Record world := {
  heap : store;
  script : list reply;
  trace : list event;
  sim : simulator
}.

Definition set_heap (h : store) (w : world) : world :=
  {| heap := h; script := script w; trace := trace w; sim := sim w |}.
Definition set_script (s : list reply) (w : world) : world :=
  {| heap := heap w; script := s; trace := trace w; sim := sim w |}.
Definition add_event (ev : event) (w : world) : world :=
  {| heap := heap w; script := script w; trace := trace w ++ [ev]; sim := sim w |}.

(** ** State and exception monad *)

Definition M (S A : Type) : Type := S -> result A * S.

Definition ret {S A} (a : A) : M S A := fun s => (Ok a, s).

Definition raise {S A} (e : exn) : M S A := fun s => (Raise e, s).

Definition bind {S A B} (m : M S A) (k : A -> M S B) : M S B :=
  fun s =>
    match m s with
    | (Ok a, s') => k a s'
    | (Raise e, s') => (Raise e, s')
    | (Diverge, s') => (Diverge, s')
    end.

Notation "x <- m ;; k" := (bind m (fun x => k))
  (at level 100, m at next level, right associativity).
Notation "m ;; k" := (bind m (fun _ => k))
  (at level 100, right associativity).

Definition gets {S A} (f : S -> A) : M S A := fun s => (Ok (f s), s).
Definition modify {S} (f : S -> S) : M S unit := fun s => (Ok tt, f s).

(* try: m  except <class> as e: handler e *)
Definition try_except {S A} (m : M S A) (catches : exn -> bool)
    (handler : exn -> M S A) : M S A :=
  fun s =>
    match m s with
    | (Raise e, s') => if catches e then handler e s' else (Raise e, s')
    | r => r
    end.

(* try: m  finally: fin.  An exception of fin replaces the outcome of m;
   a body that never returns never reaches fin. *)
Definition try_finally {S A} (m : M S A) (fin : M S unit) : M S A :=
  fun s =>
    match m s with
    | (Diverge, s') => (Diverge, s')
    | (r, s') =>
        match fin s' with
        | (Ok _, s'') => (r, s'')
        | (Raise e, s'') => (Raise e, s'')
        | (Diverge, s'') => (Diverge, s'')
        end
    end.

Definition of_result {S A} (r : result A) : M S A := fun s => (r, s).

(* one call into a collaborator: it answers with the next reply of the
   script; once the script is used up every call returns normally *)
Definition ext : M world unit :=
  fun w =>
    (match head (script w) with
     | Some (Throws e) => Raise e
     | _ => Ok tt
     end,
     set_script (tail (script w)) w).

(* an environment in which no call raises *)
Definition calm (rs : list reply) : bool :=
  forallb (fun r => match r with Normal => true | Throws _ => false end) rs.

Definition emit (ev : event) : M world unit := modify (add_event ev).

Definition is_CvBridgeError (e : exn) : bool :=
  match e with CvBridgeError _ => true | _ => false end.

Definition is_ROSInterruptException (e : exn) : bool :=
  match e with ROSInterruptException _ => true | _ => false end.

(* rospy.logerr, rospy.loginfo *)
Definition logerr (e : exn) : M world unit := emit (LogErr e).
Definition loginfo (msg : string) : M world unit := emit (LogInfo msg).

(* reading a local variable that may not have been assigned *)
Definition load_local {S A} (name : string) (v : option A) : M S A :=
  match v with
  | Some a => ret a
  | None => raise (UnboundLocalError name)
  end.

(* cv_bridge.cv2_to_imgmsg(cvim, encoding): the message takes its size from
   the array's shape and its data from the array's bytes at the time of the
   call *)
Definition imgmsg (h : store) (cvim : ndarray) (enc : string) : Image :=
  {| msg_height := nth 0 (shape cvim) 0;
     msg_width := nth 1 (shape cvim) 0;
     encoding := enc;
     data := tobytes h cvim |}.

Definition cv2_to_imgmsg (cvim : ndarray) (enc : string) : M world Image :=
  ext ;;
  h <- gets heap ;;
  ret (imgmsg h cvim enc).

(* rospy.Publisher(topic, Image, queue_size=10); the handle is its topic *)
Definition Publisher (topic : string) : M world string :=
  emit (NewPublisher topic) ;;
  ext ;;
  ret topic.

(* publisher.publish(message) *)
Definition publish (publisher : string) (m : Image) : M world unit :=
  emit (Publish publisher m) ;;
  ext.

(* publish_image, lines 23-34 *)
Definition publish_image (carla_image : CarlaImage) (topic : string)
  : M world unit :=
  image_message <-
    try_except
      (h <- gets heap ;;
       cv_image <- of_result (get_cv_image h carla_image) ;;
       image_message <- cv2_to_imgmsg cv_image "rgb8" ;;
       ret (Some image_message))
      is_CvBridgeError
      (fun e => logerr e ;; ret None) ;;
  try_except
    (publisher <- Publisher topic ;;
     image_message <- load_local "image_message" image_message ;;
     publish publisher image_message)
    is_ROSInterruptException
    (fun e => logerr e).

Section Relay.

(* carla_image.convert(cc) rewrites the buffer in place: the byte it leaves
   at each offset, given the converter and the bytes before the call *)
Variable converted : ColorConverter -> list byte -> nat -> byte.

Definition convert_bytes (cc : ColorConverter) (old : list byte) : list byte :=
  imap (fun i _ => converted cc old i) old.

Definition convert (carla_image : CarlaImage) (cc : ColorConverter)
  : M world unit :=
  emit (Convert (raw_data carla_image) cc) ;;
  ext ;;
  modify (fun w =>
    set_heap (<[raw_data carla_image :=
                  convert_bytes cc (heap w (raw_data carla_image))]> (heap w)) w).

(* publish_image_and_viz, lines 36-44 *)
Definition publish_image_and_viz (carla_image : CarlaImage)
    (topic camera_type : string) : M world unit :=
  publish_image carla_image topic ;;
  (if decide (camera_type = "semantic_segmentation")
   then convert carla_image CityScapesPalette
   else if decide (camera_type = "depth")
   then convert carla_image Depth
   else ret tt) ;;
  publish_image carla_image (topic +:+ "_viz").

Definition run_callback (cb : callback) (carla_image : CarlaImage)
  : M world unit :=
  match cb with
  | CbPublishImage topic => publish_image carla_image topic
  | CbPublishImageAndViz topic camera_type =>
      publish_image_and_viz carla_image topic camera_type
  end.

End Relay.

(** ** main: setup, tick loop and teardown *)

(* the five variables main initialises to None, lines 47-51 *)
Record locals := {
  ego_vehicle : option actor;
  camera_main_rgb : option actor;
  camera_main_semantic_segmentation : option actor;
  camera_main_depth : option actor;
  camera_3pv_rgb : option actor
}.

Record frame := {
  vars : locals;
  env : world
}.

Definition lift {A} (m : M world A) : M frame A :=
  fun s => let (r, w) := m (env s) in (r, {| vars := vars s; env := w |}).

Definition assign (f : locals -> locals) : M frame unit :=
  modify (fun s => {| vars := f (vars s); env := env s |}).

Definition set_ego_vehicle (v : option actor) (l : locals) : locals :=
  {| ego_vehicle := v;
     camera_main_rgb := camera_main_rgb l;
     camera_main_semantic_segmentation := camera_main_semantic_segmentation l;
     camera_main_depth := camera_main_depth l;
     camera_3pv_rgb := camera_3pv_rgb l |}.
Definition set_camera_main_rgb (v : option actor) (l : locals) : locals :=
  {| ego_vehicle := ego_vehicle l;
     camera_main_rgb := v;
     camera_main_semantic_segmentation := camera_main_semantic_segmentation l;
     camera_main_depth := camera_main_depth l;
     camera_3pv_rgb := camera_3pv_rgb l |}.
Definition set_camera_main_semantic_segmentation (v : option actor)
    (l : locals) : locals :=
  {| ego_vehicle := ego_vehicle l;
     camera_main_rgb := camera_main_rgb l;
     camera_main_semantic_segmentation := v;
     camera_main_depth := camera_main_depth l;
     camera_3pv_rgb := camera_3pv_rgb l |}.
Definition set_camera_main_depth (v : option actor) (l : locals) : locals :=
  {| ego_vehicle := ego_vehicle l;
     camera_main_rgb := camera_main_rgb l;
     camera_main_semantic_segmentation := camera_main_semantic_segmentation l;
     camera_main_depth := v;
     camera_3pv_rgb := camera_3pv_rgb l |}.
Definition set_camera_3pv_rgb (v : option actor) (l : locals) : locals :=
  {| ego_vehicle := ego_vehicle l;
     camera_main_rgb := camera_main_rgb l;
     camera_main_semantic_segmentation := camera_main_semantic_segmentation l;
     camera_main_depth := camera_main_depth l;
     camera_3pv_rgb := v |}.

Definition unset : locals :=
  {| ego_vehicle := None;
     camera_main_rgb := None;
     camera_main_semantic_segmentation := None;
     camera_main_depth := None;
     camera_3pv_rgb := None |}.

(* random.choice(seq) *)
Definition random_choice {A} (l : list A) : M world A :=
  match l with
  | [] => raise (IndexError "Cannot choose from an empty sequence")
  | x :: _ =>
      gets (fun w => default x (l !! (random_pick (sim w) mod length l)))
  end.

(* a method call on the value of a variable *)
Definition method {S A} (v : option actor) (k : actor -> M S A) : M S A :=
  match v with
  | Some a => k a
  | None => raise (AttributeError "'NoneType' object has no attribute")
  end.

(* world.spawn_actor(blueprint, transform, attach_to=...) *)
Definition spawn_actor (a : actor) (attach_to : option actor) : M world actor :=
  ext ;;
  emit (Spawned a attach_to) ;;
  ret a.

(* sensor.listen(callback) *)
Definition listen (cb : callback) (a : actor) : M world unit :=
  ext ;;
  emit (Listen a cb).

(* actor.destroy() *)
Definition destroy (a : actor) : M world unit :=
  emit (Destroy a) ;;
  ext.

(* create_camera_blueprint, lines 73-80 *)
Definition create_camera_blueprint (role_name blueprint fov : string)
  : M world string :=
  ext ;; (* blueprint_library.find(blueprint) *)
  ext ;; (* set_attribute('role_name', role_name) *)
  ext ;; (* set_attribute('image_size_x', '720') *)
  ext ;; (* set_attribute('image_size_y', '480') *)
  ext ;; (* set_attribute('fov', fov) *)
  ext ;; (* set_attribute('sensor_tick', '0.1') *)
  ret role_name.

(* carla.Transform(carla.Location(..), carla.Rotation(..)) *)
Definition Transform : M world unit :=
  ext ;; ext ;; ext.

(* while True: world.wait_for_tick(), unrolled along the script: a tick that
   raises ends the loop, and when no reply raises the loop goes on forever *)
Fixpoint ticks (rs : list reply) : result unit * list reply :=
  match rs with
  | [] => (Diverge, [])
  | Normal :: rest => ticks rest
  | Throws e :: rest => (Raise e, rest)
  end.

Definition wait_for_ticks : M world unit :=
  fun w => let (r, rest) := ticks (script w) in (r, set_script rest w).

(* the try block, lines 54-109 *)
Definition setup_and_run : M frame unit :=
  lift ext ;; (* client = carla.Client('localhost', 2000) *)
  lift ext ;; (* client.set_timeout(15.0) *)
  lift ext ;; (* world = client.get_world() *)
  lift ext ;; (* blueprint_library = world.get_blueprint_library() *)
  lift ext ;; (* vehicle_blueprint = blueprint_library.find(..) *)
  lift ext ;; (* vehicle_blueprint.set_attribute('role_name', 'ego_vehicle') *)
  lift ext ;; (* vehicle_blueprint.has_attribute('color') *)
  has <- lift (gets (fun w => has_color (sim w))) ;;
  (if has : bool
   then
     lift ext ;; (* vehicle_blueprint.get_attribute('color') *)
     values <- lift (gets (fun w => recommended_values (sim w))) ;;
     color <- lift (random_choice values) ;;
     lift ext (* vehicle_blueprint.set_attribute('color', color) *)
   else ret tt) ;;
  lift ext ;; (* world.get_map() *)
  lift ext ;; (* .get_spawn_points() *)
  points <- lift (gets (fun w => spawn_points (sim w))) ;;
  vehicle_transform <- lift (random_choice points) ;;
  a <- lift (spawn_actor EgoVehicle None) ;;
  assign (set_ego_vehicle (Some a)) ;;
  v <- gets (fun s => ego_vehicle (vars s)) ;;
  method v (fun _ => lift ext) ;; (* ego_vehicle.set_autopilot(False) *)
  lift (create_camera_blueprint "ego_vehicle_camera_main_rgb"
          "sensor.camera.rgb" "120") ;;
  lift (create_camera_blueprint "ego_vehicle_camera_main_semantic_segmentation"
          "sensor.camera.semantic_segmentation" "120") ;;
  lift (create_camera_blueprint "ego_vehicle_camera_main_depth"
          "sensor.camera.depth" "120") ;;
  lift (create_camera_blueprint "ego_vehicle_camera_3pv_rgb"
          "sensor.camera.rgb" "90") ;;
  lift Transform ;; (* camera_main_transform *)
  lift Transform ;; (* camera_3pv_transform *)
  v <- gets (fun s => ego_vehicle (vars s)) ;;
  a <- lift (spawn_actor CameraMainRgb v) ;;
  assign (set_camera_main_rgb (Some a)) ;;
  v <- gets (fun s => ego_vehicle (vars s)) ;;
  a <- lift (spawn_actor CameraMainSemanticSegmentation v) ;;
  assign (set_camera_main_semantic_segmentation (Some a)) ;;
  v <- gets (fun s => ego_vehicle (vars s)) ;;
  a <- lift (spawn_actor CameraMainDepth v) ;;
  assign (set_camera_main_depth (Some a)) ;;
  v <- gets (fun s => ego_vehicle (vars s)) ;;
  a <- lift (spawn_actor Camera3pvRgb v) ;;
  assign (set_camera_3pv_rgb (Some a)) ;;
  lift (loginfo "Ego vehicle and sensors spawned") ;;
  c <- gets (fun s => camera_main_rgb (vars s)) ;;
  method c (fun a => lift (listen (CbPublishImage "camera_main_rgb") a)) ;;
  c <- gets (fun s => camera_main_semantic_segmentation (vars s)) ;;
  method c (fun a =>
    lift (listen (CbPublishImageAndViz "camera_main_semantic_segmentation"
                    "semantic_segmentation") a)) ;;
  c <- gets (fun s => camera_main_depth (vars s)) ;;
  method c (fun a =>
    lift (listen (CbPublishImageAndViz "camera_main_depth" "depth") a)) ;;
  c <- gets (fun s => camera_3pv_rgb (vars s)) ;;
  method c (fun a => lift (listen (CbPublishImage "camera_3pv_rgb") a)) ;;
  lift wait_for_ticks.

(* if x is not None: x.destroy() *)
Definition destroy_if_set (v : option actor) : M frame unit :=
  match v with
  | Some a => lift (destroy a)
  | None => ret tt
  end.

(* the finally block, lines 111-122 *)
Definition teardown : M frame unit :=
  (v <- gets (fun s => ego_vehicle (vars s)) ;; destroy_if_set v) ;;
  (v <- gets (fun s => camera_main_rgb (vars s)) ;; destroy_if_set v) ;;
  (v <- gets (fun s => camera_main_semantic_segmentation (vars s)) ;;
   destroy_if_set v) ;;
  (v <- gets (fun s => camera_main_depth (vars s)) ;; destroy_if_set v) ;;
  (v <- gets (fun s => camera_3pv_rgb (vars s)) ;; destroy_if_set v) ;;
  lift (loginfo "Ego vehicle and sensors destroyed").

(* main, lines 46-122 *)
Definition main : M world unit :=
  fun w =>
    let (r, s) := try_finally setup_and_run teardown {| vars := unset; env := w |}
    in (r, env s).

(* a fresh process: nothing traced yet *)
Definition boot (h : store) (rs : list reply) (sm : simulator) : world :=
  {| heap := h; script := rs; trace := []; sim := sm |}.

(** ** Names used in the statements *)

(* the view get_cv_image returns on a buffer of the right size *)
Definition rgb_view (img : CarlaImage) : ndarray :=
  {| base := raw_data img; offset := 2;
     shape := [height img; width img; 3];
     strides := [Z.of_nat (width img * 4); 4%Z; (-1)%Z] |}.

(* a 1 x 2 frame: two BGRA pixels in one buffer *)
Definition frame_1x2 : CarlaImage :=
  {| raw_data := 0; height := 1; width := 2 |}.

Definition store_1x2 : store :=
  fun _ => [Byte.x01; Byte.x02; Byte.x03; Byte.x04;
            Byte.x05; Byte.x06; Byte.x07; Byte.x08].

(* a converter that paints every byte white *)
Definition whiten : ColorConverter -> list byte -> nat -> byte :=
  fun _ _ _ => Byte.xff.

Definition town : simulator :=
  {| has_color := true; recommended_values := ["255,0,0"];
     spawn_points := [7]; random_pick := 3 |}.

Definition world_1x2 (rs : list reply) : world :=
  {| heap := store_1x2; script := rs; trace := []; sim := town |}.

(* the five actors in the order main spawns them *)
Definition all_actors : list actor :=
  [EgoVehicle; CameraMainRgb; CameraMainSemanticSegmentation;
   CameraMainDepth; Camera3pvRgb].

(* the actors held by the variables that are set, in the order of the
   finally block *)
Definition created (l : locals) : list actor :=
  omap id [ego_vehicle l; camera_main_rgb l;
           camera_main_semantic_segmentation l; camera_main_depth l;
           camera_3pv_rgb l].

(* the actors the simulator created, and those whose destroy was called, in
   the order of the trace *)
Definition spawned (t : list event) : list actor :=
  omap (fun ev => match ev with Spawned a _ => Some a | _ => None end) t.

Definition destroyed (t : list event) : list actor :=
  omap (fun ev => match ev with Destroy a => Some a | _ => None end) t.

(* destroy calls made one after the other on the actors of l, against the
   replies rs: the calls stop after the first one that raises *)
Fixpoint attempted (l : list actor) (rs : list reply) : list actor :=
  match l with
  | [] => []
  | a :: l' =>
      a :: match head rs with
           | Some (Throws _) => []
           | _ => attempted l' (tail rs)
           end
  end.

Fixpoint first_failure (l : list actor) (rs : list reply) : option exn :=
  match l with
  | [] => None
  | _ :: l' =>
      match head rs with
      | Some (Throws e) => Some e
      | _ => first_failure l' (tail rs)
      end
  end.

(* the variables once the first k actors are spawned *)
Definition stage_vars (k : nat) : locals :=
  {| ego_vehicle := if (1 <=? k)%nat then Some EgoVehicle else None;
     camera_main_rgb := if (2 <=? k)%nat then Some CameraMainRgb else None;
     camera_main_semantic_segmentation :=
       if (3 <=? k)%nat then Some CameraMainSemanticSegmentation else None;
     camera_main_depth := if (4 <=? k)%nat then Some CameraMainDepth else None;
     camera_3pv_rgb := if (5 <=? k)%nat then Some Camera3pvRgb else None |}.

(* how main wires the actors: the vehicle has no parent, each sensor is
   attached to the vehicle and listens with its own callback *)
Definition wired (ev : event) : Prop :=
  match ev with
  | Spawned EgoVehicle p => p = None
  | Spawned _ p => p = Some EgoVehicle
  | Listen CameraMainRgb cb => cb = CbPublishImage "camera_main_rgb"
  | Listen CameraMainSemanticSegmentation cb =>
      cb = CbPublishImageAndViz "camera_main_semantic_segmentation"
             "semantic_segmentation"
  | Listen CameraMainDepth cb =>
      cb = CbPublishImageAndViz "camera_main_depth" "depth"
  | Listen Camera3pvRgb cb => cb = CbPublishImage "camera_3pv_rgb"
  | Listen EgoVehicle _ => False
  | _ => True
  end.

(* main's frame when the try block is entered, and when it is left *)
Definition start (h : store) (rs : list reply) (sm : simulator) : frame :=
  {| vars := unset; env := boot h rs sm |}.

Definition exit_state (h : store) (rs : list reply) (sm : simulator) : frame :=
  snd (setup_and_run (start h rs sm)).

(* Hoare triples with a postcondition for normal return and one for every
   other way out *)
Definition hoare {S A} (P : S -> Prop) (m : M S A) (Q : A -> S -> Prop)
    (E : S -> Prop) : Prop :=
  forall s, P s ->
    match m s with
    | (Ok a, s') => Q a s'
    | (_, s') => E s'
    end.

(* a computation on the world whose events neither spawn nor destroy an
   actor, and register only a sensor's own callback *)
Definition benign {A} (m : M world A) : Prop :=
  forall w, exists evs,
    trace (snd (m w)) = (trace w ++ evs)%list /\
    spawned evs = [] /\ destroyed evs = [] /\ Forall wired evs.

(* kv variables are set and kt actors are spawned; nothing is destroyed and
   every actor is wired as main wires it *)
Definition Inv (kv kt : nat) (s : frame) : Prop :=
  vars s = stage_vars kv /\
  spawned (trace (env s)) = take kt all_actors /\
  destroyed (trace (env s)) = [] /\
  Forall wired (trace (env s)).

Definition Exit (s : frame) : Prop :=
  exists k, k <= 5 /\ Inv k k s.

(* events a publish on one channel may leave: a logged error, the handle
   of that channel, a message on that channel *)
Definition on_topic (topic : string) (ev : event) : Prop :=
  match ev with
  | LogErr _ => True
  | NewPublisher t => t = topic
  | Publish t _ => t = topic
  | _ => False
  end.

(* the messages published, with their channels *)
Definition publishes (t : list event) : list (string * Image) :=
  omap (fun ev => match ev with Publish c m => Some (c, m) | _ => None end) t.

#[global] Instance actor_eq_dec : EqDecision actor.
Proof. solve_decision. Defined.

(* a session interrupted while main waits for ticks: every call of the setup
   returns, then wait_for_tick raises KeyboardInterrupt *)
Definition interrupted : list reply :=
  (repeat Normal 60 ++ [Throws KeyboardInterrupt])%list.

(* the same session with a simulator that is gone when teardown starts: the
   first destroy call times out *)
Definition simulator_gone : list reply :=
  (repeat Normal 60
   ++ [Throws KeyboardInterrupt; Throws (RuntimeError "time-out")])%list.

(* a session in which spawning the third sensor fails *)
Definition third_sensor_fails : list reply :=
  (repeat Normal 45 ++ [Throws (RuntimeError "spawn failed")])%list.

(* spawning the third sensor fails, and during teardown the destroy call of
   the second created actor times out *)
Definition teardown_cut_short : list reply :=
  (repeat Normal 45
   ++ [Throws (RuntimeError "spawn failed"); Normal;
       Throws (RuntimeError "time-out")])%list.

(** ** The script's entry point *)

(* the process: what it printed, and the world it acts on *)
Record process := {
  stdout : list string;
  sys : world
}.

Definition in_world {A} (m : M world A) : M process A :=
  fun p => let (r, w) := m (sys p) in (r, {| stdout := stdout p; sys := w |}).

Definition print (line : string) : M process unit :=
  modify (fun p => {| stdout := stdout p ++ [line]; sys := sys p |}).

(* except KeyboardInterrupt: rospy's ROSInterruptException derives from
   KeyboardInterrupt and is caught with it *)
Definition is_KeyboardInterrupt (e : exn) : bool :=
  match e with
  | KeyboardInterrupt => true
  | ROSInterruptException _ => true
  | _ => false
  end.

(* the line print('\ndone.') writes *)
Definition done_line : string := String (Ascii.ascii_of_nat 10) "done.".

(* the block under if __name__ == '__main__', lines 125-132 *)
Definition entry : M process unit :=
  try_finally
    (try_except (in_world main) is_KeyboardInterrupt (fun _ => ret tt))
    (print done_line).

(* the module's statements above the function definitions, lines 5-14: each
   import runs the imported module, a call that returns or raises; none of
   them sits in a try block *)
Definition prelude : M world unit :=
  ext ;; (* import random *)
  ext ;; (* import carla *)
  ext ;; (* import rospy *)
  ext ;; (* from sensor_msgs.msg import Image *)
  ext ;; (* import cv2 *)
  ext ;; (* import numpy as np *)
  ext ;; (* from cv_bridge import CvBridge, CvBridgeError *)
  ext ;; (* rospy.init_node('simulator_ego_vehicle') *)
  ext.   (* cv_bridge = CvBridge() *)

(* the file run as a program: the prelude, the function definitions (which
   do nothing when executed), then the block of lines 125-132 *)
Definition program : M process unit :=
  in_world prelude ;; entry.

(** ** More names used in the statements *)

(* events publish_image_and_viz may leave for a frame whose buffer is b: a
   logged error, a handle or a message on one of its two channels, the
   conversion of that buffer *)
Definition relay_event (topic : string) (b : loc) (ev : event) : Prop :=
  match ev with
  | LogErr _ => True
  | NewPublisher t => t = topic \/ t = topic +:+ "_viz"
  | Publish t _ => t = topic \/ t = topic +:+ "_viz"
  | Convert b' _ => b' = b
  | _ => False
  end.

(* the buffers converted, in the order of the trace *)
Definition converts (t : list event) : list loc :=
  omap (fun ev => match ev with Convert b _ => Some b | _ => None end) t.

(* the events of the actors' life cycle, the only ones main leaves *)
Definition lifecycle_event (ev : event) : Prop :=
  match ev with
  | Spawned _ _ => True
  | Listen _ _ => True
  | Destroy _ => True
  | LogInfo _ => True
  | _ => False
  end.

(* a frame with no pixel *)
Definition frame_0x0 : CarlaImage :=
  {| raw_data := 1; height := 0; width := 0 |}.

Definition store_empty : store := fun _ => [].

(* a map without a spawn point *)
Definition empty_town : simulator :=
  {| has_color := false; recommended_values := [];
     spawn_points := []; random_pick := 0 |}.

(* a computation that leaves only life-cycle events and does not touch the
   store, on the world and on main's frame *)
Definition tame {A} (m : M world A) : Prop :=
  forall w, exists evs,
    trace (snd (m w)) = (trace w ++ evs)%list /\
    Forall lifecycle_event evs /\
    heap (snd (m w)) = heap w.

Definition ftame {A} (m : M frame A) : Prop :=
  forall s, exists evs,
    trace (env (snd (m s))) = (trace (env s) ++ evs)%list /\
    Forall lifecycle_event evs /\
    heap (env (snd (m s))) = heap (env s).

(* in a calm environment with simulator sm, m ends with result r and leaves
   the events evs *)
Definition steady {A} (sm : simulator) (m : M world A) (r : result A)
    (evs : list event) : Prop :=
  forall w, sim w = sm -> calm (script w) = true ->
    exists w',
      m w = (r, w') /\ sim w' = sm /\ heap w' = heap w /\
      calm (script w') = true /\ trace w' = (trace w ++ evs)%list.

(* the same on main's frame, from the variables vs to the variables vs' *)
Definition runs {A} (sm : simulator) (m : M frame A) (vs : locals)
    (r : result A) (vs' : locals) (evs : list event) : Prop :=
  forall s, vars s = vs -> sim (env s) = sm -> calm (script (env s)) = true ->
    exists s',
      m s = (r, s') /\ vars s' = vs' /\ sim (env s') = sm /\
      heap (env s') = heap (env s) /\ calm (script (env s')) = true /\
      trace (env s') = (trace (env s) ++ evs)%list.

(* what main leaves when everything is spawned and every sensor listens *)
Definition session_trace : list event :=
  [Spawned EgoVehicle None;
   Spawned CameraMainRgb (Some EgoVehicle);
   Spawned CameraMainSemanticSegmentation (Some EgoVehicle);
   Spawned CameraMainDepth (Some EgoVehicle);
   Spawned Camera3pvRgb (Some EgoVehicle);
   LogInfo "Ego vehicle and sensors spawned";
   Listen CameraMainRgb (CbPublishImage "camera_main_rgb");
   Listen CameraMainSemanticSegmentation
     (CbPublishImageAndViz "camera_main_semantic_segmentation"
        "semantic_segmentation");
   Listen CameraMainDepth (CbPublishImageAndViz "camera_main_depth" "depth");
   Listen Camera3pvRgb (CbPublishImage "camera_3pv_rgb")].

(* the 1 x 2 frame with other alpha bytes *)
Definition store_1x2_opaque : store :=
  fun _ => [Byte.x01; Byte.x02; Byte.x03; Byte.xff;
            Byte.x05; Byte.x06; Byte.x07; Byte.xff].

(** * Properties *)

(** ** Lists cut in blocks of one length *)

Lemma length_flat_map_uniform {A} (f : nat -> list A) (k s n : nat) :
  (forall x, s <= x < s + n -> length (f x) = k) ->
  length (flat_map f (seq s n)) = n * k.
Proof.
  revert s. induction n as [|n IH]; intros s Hf; simpl; [reflexivity|].
  rewrite length_app, Hf by lia. rewrite IH; [lia|].
  intros x Hx. apply Hf. lia.
Qed.

Lemma lookup_flat_map_uniform {A} (f : nat -> list A) (k s n i r : nat) :
  (forall x, s <= x < s + n -> length (f x) = k) ->
  i < n -> r < k ->
  flat_map f (seq s n) !! (i * k + r) = f (s + i) !! r.
Proof.
  revert s i. induction n as [|n IH]; intros s i Hf Hi Hr; [lia|].
  simpl. destruct i as [|i].
  - rewrite lookup_app_l by (rewrite Hf; lia).
    simpl. by rewrite Nat.add_0_r.
  - rewrite lookup_app_r by (rewrite Hf; lia).
    rewrite Hf by lia.
    replace (S i * k + r - k) with (i * k + r) by lia.
    rewrite IH; try lia.
    + f_equal. f_equal. lia.
    + intros x Hx. apply Hf. lia.
Qed.

Lemma omap_id_all_Some {A} (l : list (option A)) :
  Forall is_Some l -> Some <$> omap id l = l.
Proof.
  induction 1 as [|x l [a ->] _ IH]; csimpl; [reflexivity|].
  by rewrite IH.
Qed.

(** ** The frame converter *)

(* reading the BGRA buffer at the place the view puts element (i, j, c) *)
Lemma read_at_view (bytes : list byte) (W i j c : nat) :
  c < 3 ->
  read_at bytes (2 + Z.of_nat i * Z.of_nat (W * 4) + Z.of_nat j * 4
                 + Z.of_nat c * -1)%Z
  = bytes !! ((i * W + j) * 4 + (2 - c)).
Proof.
  intros Hc. unfold read_at.
  destruct (Z.ltb_spec (2 + Z.of_nat i * Z.of_nat (W * 4) + Z.of_nat j * 4
                        + Z.of_nat c * -1) 0) as [Hneg|Hpos]; [lia|].
  f_equal. lia.
Qed.

Lemma get_cv_image_view (h : store) (img : CarlaImage) :
  length (h (raw_data img)) = height img * width img * 4 ->
  get_cv_image h img =
    Ok {| base := raw_data img; offset := 2;
          shape := [height img; width img; 3];
          strides := [Z.of_nat (width img * 4); 4%Z; (-1)%Z] |}.
Proof.
  intros Hlen. unfold get_cv_image, reshape, size, frombuffer. simpl.
  case_decide as Hsz; [|lia]. reflexivity.
Qed.

Lemma elems_view_length (bytes : list byte) (H W : nat) :
  length (elems bytes 2 [H; W; 3] [Z.of_nat (W * 4); 4%Z; (-1)%Z]) = H * W * 3.
Proof.
  cbn [elems].
  rewrite (length_flat_map_uniform _ (W * 3)); [lia|].
  intros x _. rewrite (length_flat_map_uniform _ 3); [lia|].
  intros y _. reflexivity.
Qed.

Lemma elems_view_lookup (bytes : list byte) (H W i j c : nat) :
  i < H -> j < W -> c < 3 ->
  elems bytes 2 [H; W; 3] [Z.of_nat (W * 4); 4%Z; (-1)%Z]
    !! ((i * W + j) * 3 + c)
  = Some (bytes !! ((i * W + j) * 4 + (2 - c))).
Proof.
  intros Hi Hj Hc. cbn [elems].
  replace ((i * W + j) * 3 + c) with (i * (W * 3) + (j * 3 + c)) by lia.
  rewrite (lookup_flat_map_uniform _ (W * 3)); try lia.
  2:{ intros x _. rewrite (length_flat_map_uniform _ 3); [lia|].
      intros y _. reflexivity. }
  rewrite (lookup_flat_map_uniform _ 3); try lia.
  2:{ intros y _. reflexivity. }
  simpl "+". rewrite <- read_at_view by done.
  destruct c as [|[|[|c]]]; try lia; reflexivity.
Qed.

Lemma elems_view_all_Some (bytes : list byte) (H W : nat) :
  length bytes = H * W * 4 ->
  Forall is_Some (elems bytes 2 [H; W; 3] [Z.of_nat (W * 4); 4%Z; (-1)%Z]).
Proof.
  intros Hlen. cbn [elems].
  apply List.Forall_flat_map, List.Forall_forall. intros i [_ Hi]%in_seq.
  apply List.Forall_flat_map, List.Forall_forall. intros j [_ Hj]%in_seq.
  apply List.Forall_flat_map, List.Forall_forall. intros c [_ Hc]%in_seq.
  constructor; [|constructor].
  rewrite read_at_view by lia.
  apply lookup_lt_is_Some. nia.
Qed.

Lemma tobytes_view_lookup (h : store) (b : loc) (H W i j c : nat) :
  length (h b) = H * W * 4 ->
  i < H -> j < W -> c < 3 ->
  tobytes h {| base := b; offset := 2; shape := [H; W; 3];
               strides := [Z.of_nat (W * 4); 4%Z; (-1)%Z] |}
    !! ((i * W + j) * 3 + c)
  = h b !! ((i * W + j) * 4 + (2 - c)).
Proof.
  intros Hlen Hi Hj Hc. unfold tobytes. cbn [base offset shape strides].
  pose proof (elems_view_lookup (h b) H W i j c Hi Hj Hc) as Hl.
  rewrite <- (omap_id_all_Some _ (elems_view_all_Some (h b) H W Hlen)) in Hl.
  rewrite list_lookup_fmap in Hl.
  destruct (omap id _ !! _) as [x|] eqn:Hx; simpl in Hl; [|discriminate].
  congruence.
Qed.

Lemma tobytes_view_length (h : store) (b : loc) (H W : nat) :
  length (h b) = H * W * 4 ->
  length (tobytes h {| base := b; offset := 2; shape := [H; W; 3];
                       strides := [Z.of_nat (W * 4); 4%Z; (-1)%Z] |})
  = H * W * 3.
Proof.
  intros Hlen. unfold tobytes. cbn [base offset shape strides].
  rewrite <- (elems_view_length (h b) H W).
  rewrite <- (omap_id_all_Some _ (elems_view_all_Some (h b) H W Hlen)) at 2.
  by rewrite length_fmap.
Qed.

Lemma getitem_view (h : store) (b : loc) (H W i j c : nat) :
  i < H -> j < W -> c < 3 ->
  getitem h {| base := b; offset := 2; shape := [H; W; 3];
               strides := [Z.of_nat (W * 4); 4%Z; (-1)%Z] |} i j c
  = h b !! ((i * W + j) * 4 + (2 - c)).
Proof.
  intros Hi Hj Hc. unfold getitem. cbn [base offset shape strides].
  rewrite decide_True by done. by apply read_at_view.
Qed.

(** C1: on a raw buffer of length h*w*4 read as row-major BGRA, get_cv_image
    returns an array of shape h x w x 3, holding exactly h*w*3 bytes, whose
    element (i, j, c) is the input byte at offset (i*w+j)*4 + (2-c): the
    alpha channel is gone and red and blue are swapped. *)
Theorem get_cv_image_rgb_of_bgra (h : store) (img : CarlaImage) :
  length (h (raw_data img)) = height img * width img * 4 ->
  exists a,
    get_cv_image h img = Ok a /\
    shape a = [height img; width img; 3] /\
    length (tobytes h a) = height img * width img * 3 /\
    forall i j c, i < height img -> j < width img -> c < 3 ->
      is_Some (h (raw_data img) !! ((i * width img + j) * 4 + (2 - c))) /\
      getitem h a i j c
        = h (raw_data img) !! ((i * width img + j) * 4 + (2 - c)) /\
      tobytes h a !! ((i * width img + j) * 3 + c)
        = h (raw_data img) !! ((i * width img + j) * 4 + (2 - c)).
Proof.
  intros Hlen. eexists. split; [by apply get_cv_image_view|].
  split; [reflexivity|].
  split; [by apply tobytes_view_length|].
  intros i j c Hi Hj Hc. split; [|split].
  - apply lookup_lt_is_Some. nia.
  - by apply getitem_view.
  - by apply tobytes_view_lookup.
Qed.

(** C5: on a raw buffer whose length is not h*w*4, get_cv_image raises
    numpy's reshape ValueError; publish_image lets it through, so nothing is
    logged, published or changed for that frame. *)
Theorem get_cv_image_size_mismatch (w : world) (img : CarlaImage)
    (topic : string) :
  length (heap w (raw_data img)) <> height img * width img * 4 ->
  get_cv_image (heap w) img
    = Raise (ValueError (length (heap w (raw_data img)))
               [height img; width img; 4]) /\
  publish_image img topic w
    = (Raise (ValueError (length (heap w (raw_data img)))
                [height img; width img; 4]), w).
Proof.
  intros Hlen.
  assert (get_cv_image (heap w) img
          = Raise (ValueError (length (heap w (raw_data img)))
                     [height img; width img; 4])) as Hget.
  { unfold get_cv_image, reshape, size, frombuffer. simpl.
    case_decide as Hsz; [lia|]. simpl. do 2 f_equal. lia. }
  split; [exact Hget|].
  unfold publish_image, bind, try_except, gets, of_result.
  rewrite Hget. reflexivity.
Qed.

(** C8, as the code has it: the array get_cv_image returns is a view on the
    raw buffer. After carla_image.convert rewrites the buffer in place,
    element (i, j, c) of the array returned earlier reads the converted byte
    at offset (i*w+j)*4 + (2-c). *)
Theorem get_cv_image_view_follows_buffer
    (converted : ColorConverter -> list byte -> nat -> byte)
    (w w' : world) (img : CarlaImage) (cc : ColorConverter) (a : ndarray)
    (i j c : nat) :
  length (heap w (raw_data img)) = height img * width img * 4 ->
  get_cv_image (heap w) img = Ok a ->
  convert converted img cc w = (Ok tt, w') ->
  i < height img -> j < width img -> c < 3 ->
  getitem (heap w') a i j c
    = Some (converted cc (heap w (raw_data img))
              ((i * width img + j) * 4 + (2 - c))).
Proof.
  intros Hlen Hget Hconv Hi Hj Hc.
  rewrite get_cv_image_view in Hget by done. injection Hget as <-.
  unfold convert, bind, emit, modify, ext in Hconv. simpl in Hconv.
  destruct (head (script w)) as [[|e]|]; simplify_eq; simpl.
  all: rewrite getitem_view by done.
  all: rewrite fn_lookup_insert; unfold convert_bytes.
  all: rewrite list_lookup_imap.
  all: destruct (lookup_lt_is_Some_2 (heap w (raw_data img))
                   ((i * width img + j) * 4 + (2 - c))) as [x ->]; [nia|done].
Qed.

(** ** The publisher *)

Lemma calm_tail (rs : list reply) : calm rs = true -> calm (tail rs) = true.
Proof. destruct rs as [|[|e] rs]; simpl; done. Qed.

Lemma get_cv_image_rgb_view (h : store) (img : CarlaImage) :
  length (h (raw_data img)) = height img * width img * 4 ->
  get_cv_image h img = Ok (rgb_view img).
Proof. apply get_cv_image_view. Qed.

(* in a calm environment a frame of the right size is published once *)
Lemma publish_image_calm (img : CarlaImage) (topic : string) (w : world) :
  length (heap w (raw_data img)) = height img * width img * 4 ->
  calm (script w) = true ->
  exists w',
    publish_image img topic w = (Ok tt, w') /\
    heap w' = heap w /\ sim w' = sim w /\ calm (script w') = true /\
    trace w' = (trace w ++
      [NewPublisher topic;
       Publish topic (imgmsg (heap w) (rgb_view img) "rgb8")])%list.
Proof.
  intros Hlen Hcalm. destruct w as [h rs t sm]. simpl in *.
  unfold publish_image, bind, try_except, gets, of_result. simpl.
  rewrite get_cv_image_rgb_view by done.
  destruct rs as [|[|?] [|[|?] [|[|?] rs]]]; try discriminate; simpl.
  all: eexists; split; [reflexivity|]; simpl.
  all: rewrite <- app_assoc; done.
Qed.

(** C2, what the code does when cv_bridge rejects a frame: the error is
    logged and no message is published, but the second try block then reads
    image_message, which was never assigned, and UnboundLocalError leaves
    publish_image. *)
Theorem publish_image_conversion_failure_raises (img : CarlaImage)
    (topic msg : string) (rest : list reply) (w : world) :
  length (heap w (raw_data img)) = height img * width img * 4 ->
  script w = Throws (CvBridgeError msg) :: rest ->
  calm rest = true ->
  exists w',
    publish_image img topic w
      = (Raise (UnboundLocalError "image_message"), w') /\
    trace w' = (trace w ++ [LogErr (CvBridgeError msg); NewPublisher topic])%list.
Proof.
  intros Hlen Hscript Hcalm. destruct w as [h rs t sm]. simpl in *. subst rs.
  unfold publish_image, bind, try_except, gets, of_result. simpl.
  rewrite get_cv_image_rgb_view by done. simpl.
  destruct rest as [|[|?] rest]; try discriminate; simpl.
  all: eexists; split; [reflexivity|]; simpl.
  all: by rewrite <- app_assoc.
Qed.

Lemma convert_calm (converted : ColorConverter -> list byte -> nat -> byte)
    (img : CarlaImage) (cc : ColorConverter) (w : world) :
  calm (script w) = true ->
  exists w',
    convert converted img cc w = (Ok tt, w') /\
    heap w' = <[raw_data img :=
                  convert_bytes converted cc (heap w (raw_data img))]> (heap w) /\
    sim w' = sim w /\ calm (script w') = true /\
    trace w' = (trace w ++ [Convert (raw_data img) cc])%list.
Proof.
  intros Hcalm. destruct w as [h rs t sm]. simpl in *.
  unfold convert, bind, emit, modify, ext. simpl.
  destruct rs as [|[|?] rs]; try discriminate; simpl.
  all: eexists; split; [reflexivity|]; simpl; done.
Qed.

Lemma length_convert_bytes converted (cc : ColorConverter) (old : list byte) :
  length (convert_bytes converted cc old) = length old.
Proof. unfold convert_bytes. apply length_imap. Qed.

Lemma data_imgmsg_converted converted (cc : ColorConverter) (h : store)
    (img : CarlaImage) (i j c : nat) :
  length (h (raw_data img)) = height img * width img * 4 ->
  i < height img -> j < width img -> c < 3 ->
  data (imgmsg (<[raw_data img :=
                    convert_bytes converted cc (h (raw_data img))]> h)
          (rgb_view img) "rgb8")
    !! ((i * width img + j) * 3 + c)
  = Some (converted cc (h (raw_data img))
            ((i * width img + j) * 4 + (2 - c))).
Proof.
  intros Hlen Hi Hj Hc. unfold imgmsg, rgb_view. cbn [data].
  rewrite tobytes_view_lookup; try done.
  - rewrite fn_lookup_insert. unfold convert_bytes. rewrite list_lookup_imap.
    destruct (lookup_lt_is_Some_2 (h (raw_data img))
                ((i * width img + j) * 4 + (2 - c))) as [x ->]; [nia|done].
  - by rewrite fn_lookup_insert, length_convert_bytes.
Qed.

(** C3: for a semantic_segmentation or depth capture, publish_image_and_viz
    publishes exactly twice: first the unmodified frame on the base channel,
    then, after converting the buffer in place with the palette
    (segmentation) or the grayscale (depth) converter, the remapped frame on
    the channel with the _viz suffix. *)
Theorem publish_image_and_viz_raw_then_viz
    (converted : ColorConverter -> list byte -> nat -> byte)
    (img : CarlaImage) (topic camera_type : string) (cc : ColorConverter)
    (w : world) :
  (camera_type = "semantic_segmentation" /\ cc = CityScapesPalette) \/
  (camera_type = "depth" /\ cc = Depth) ->
  length (heap w (raw_data img)) = height img * width img * 4 ->
  calm (script w) = true ->
  exists w',
    publish_image_and_viz converted img topic camera_type w = (Ok tt, w') /\
    heap w' = <[raw_data img :=
                  convert_bytes converted cc (heap w (raw_data img))]> (heap w) /\
    trace w' =
      (trace w ++
        [NewPublisher topic;
         Publish topic (imgmsg (heap w) (rgb_view img) "rgb8");
         Convert (raw_data img) cc;
         NewPublisher (topic +:+ "_viz");
         Publish (topic +:+ "_viz") (imgmsg (heap w') (rgb_view img) "rgb8")])%list /\
    forall i j c, i < height img -> j < width img -> c < 3 ->
      data (imgmsg (heap w) (rgb_view img) "rgb8")
          !! ((i * width img + j) * 3 + c)
        = heap w (raw_data img) !! ((i * width img + j) * 4 + (2 - c)) /\
      data (imgmsg (heap w') (rgb_view img) "rgb8")
          !! ((i * width img + j) * 3 + c)
        = Some (converted cc (heap w (raw_data img))
                  ((i * width img + j) * 4 + (2 - c))).
Proof.
  intros Hkind Hlen Hcalm. unfold publish_image_and_viz, bind.
  destruct (publish_image_calm img topic w Hlen Hcalm)
    as (w1 & -> & Hh1 & Hs1 & Hc1 & Ht1).
  destruct (convert_calm converted img cc w1 Hc1)
    as (w2 & Hconv & Hh2 & Hs2 & Hc2 & Ht2).
  assert (length (heap w2 (raw_data img)) = height img * width img * 4)
    as Hlen2.
  { rewrite Hh2, fn_lookup_insert, length_convert_bytes, Hh1. done. }
  destruct (publish_image_calm img (topic +:+ "_viz") w2 Hlen2 Hc2)
    as (w3 & Hpub & Hh3 & Hs3 & Hc3 & Ht3).
  exists w3.
  assert ((if decide (camera_type = "semantic_segmentation")
           then convert converted img CityScapesPalette
           else if decide (camera_type = "depth")
                then convert converted img Depth else ret tt) w1
          = (Ok tt, w2)) as ->.
  { destruct Hkind as [[-> ->]|[-> ->]]; repeat case_decide; done. }
  rewrite Hpub, Hh3, Hh2, Hh1. split; [done|]. split; [done|].
  split.
  - rewrite Ht3, Ht2, Ht1, Hh2, Hh1. by rewrite <- !app_assoc.
  - intros i j c Hi Hj Hc. split.
    + unfold imgmsg, rgb_view. cbn [data]. by apply tobytes_view_lookup.
    + by apply data_imgmsg_converted.
Qed.

(** C10: with any other camera_type, publish_image_and_viz still publishes
    twice, the same unmodified frame on the base channel and on the channel
    with the _viz suffix, and converts nothing in between. *)
Theorem publish_image_and_viz_other_kind
    (converted : ColorConverter -> list byte -> nat -> byte)
    (img : CarlaImage) (topic camera_type : string) (w : world) :
  camera_type <> "semantic_segmentation" ->
  camera_type <> "depth" ->
  length (heap w (raw_data img)) = height img * width img * 4 ->
  calm (script w) = true ->
  exists w',
    publish_image_and_viz converted img topic camera_type w = (Ok tt, w') /\
    heap w' = heap w /\
    trace w' =
      (trace w ++
        [NewPublisher topic;
         Publish topic (imgmsg (heap w) (rgb_view img) "rgb8");
         NewPublisher (topic +:+ "_viz");
         Publish (topic +:+ "_viz") (imgmsg (heap w) (rgb_view img) "rgb8")])%list.
Proof.
  intros Hseg Hdepth Hlen Hcalm. unfold publish_image_and_viz, bind.
  destruct (publish_image_calm img topic w Hlen Hcalm)
    as (w1 & -> & Hh1 & Hs1 & Hc1 & Ht1).
  rewrite !decide_False by done. unfold ret at 1.
  rewrite <- Hh1 in Hlen.
  destruct (publish_image_calm img (topic +:+ "_viz") w1 Hlen Hc1)
    as (w2 & -> & Hh2 & Hs2 & Hc2 & Ht2).
  exists w2. split; [done|]. split; [congruence|].
  rewrite Ht2, Ht1, Hh1. by rewrite <- app_assoc.
Qed.

(** ** main: what holds whenever the try block is left *)

Lemma hoare_bind {S A B} (P : S -> Prop) (m : M S A) (k : A -> M S B)
    (Q : A -> S -> Prop) (R : B -> S -> Prop) (E : S -> Prop) :
  hoare P m Q E -> (forall a, hoare (Q a) (k a) R E) ->
  hoare P (bind m k) R E.
Proof.
  intros Hm Hk s HP. unfold bind. specialize (Hm s HP).
  destruct (m s) as [[a|e|] s']; [by apply Hk|done|done].
Qed.

Lemma spawned_app (t1 t2 : list event) :
  spawned (t1 ++ t2) = (spawned t1 ++ spawned t2)%list.
Proof. apply omap_app. Qed.

Lemma destroyed_app (t1 t2 : list event) :
  destroyed (t1 ++ t2) = (destroyed t1 ++ destroyed t2)%list.
Proof. apply omap_app. Qed.

Lemma benign_ret {A} (a : A) : benign (ret a).
Proof. intros w. exists []. simpl. by rewrite app_nil_r. Qed.

Lemma benign_raise {A} (e : exn) : benign (raise (A := A) e).
Proof. intros w. exists []. simpl. by rewrite app_nil_r. Qed.

Lemma benign_gets {A} (f : world -> A) : benign (gets f).
Proof. intros w. exists []. simpl. by rewrite app_nil_r. Qed.

Lemma benign_ext : benign ext.
Proof. intros w. exists []. simpl. by rewrite app_nil_r. Qed.

Lemma benign_emit (ev : event) :
  spawned [ev] = [] -> destroyed [ev] = [] -> wired ev ->
  benign (emit ev).
Proof. intros Hs Hd Hl w. exists [ev]. simpl. repeat split; auto. Qed.

Lemma benign_bind {A B} (m : M world A) (k : A -> M world B) :
  benign m -> (forall a, benign (k a)) -> benign (bind m k).
Proof.
  intros Hm Hk w. unfold bind.
  destruct (Hm w) as (evs1 & Ht1 & Hs1 & Hd1 & Hl1).
  destruct (m w) as [[a|e|] w1]; simpl in Ht1; [|by exists evs1..].
  destruct (Hk a w1) as (evs2 & Ht2 & Hs2 & Hd2 & Hl2).
  exists (evs1 ++ evs2)%list. rewrite Ht2, Ht1, <- app_assoc.
  rewrite spawned_app, destroyed_app, Hs1, Hs2, Hd1, Hd2.
  repeat split; try done. by apply Forall_app.
Qed.

Lemma benign_random_choice {A} (l : list A) : benign (random_choice l).
Proof. destruct l; [apply benign_raise|apply benign_gets]. Qed.

Lemma benign_wait_for_ticks : benign wait_for_ticks.
Proof.
  intros w. exists []. unfold wait_for_ticks.
  destruct (ticks (script w)). simpl. by rewrite app_nil_r.
Qed.

(* the loop is one wait_for_tick followed by the loop again; with no reply
   left to raise it never ends *)
Lemma wait_for_ticks_unfold (w : world) :
  script w <> [] -> wait_for_ticks w = (ext ;; wait_for_ticks) w.
Proof.
  intros Hrs. unfold wait_for_ticks, bind, ext.
  destruct (script w) as [|[|e] rs]; [done|simpl..].
  - by destruct (ticks rs).
  - reflexivity.
Qed.

Lemma wait_for_ticks_diverges (w : world) :
  calm (script w) = true -> fst (wait_for_ticks w) = Diverge.
Proof.
  unfold wait_for_ticks. induction (script w) as [|[|e] rs IH]; simpl;
    [done| |done].
  intros Hcalm. specialize (IH Hcalm). by destruct (ticks rs).
Qed.

Lemma ticks_never_return (rs : list reply) (a : unit) :
  fst (ticks rs) <> Ok a.
Proof. induction rs as [|[|e] rs IH]; simpl; done. Qed.

Create HintDb benign.

#[local] Hint Resolve benign_ret benign_raise benign_gets benign_ext
  benign_random_choice benign_wait_for_ticks : benign.

Ltac benign :=
  repeat first
    [ apply benign_bind; [|intros ?]
    | apply benign_emit; [reflexivity|reflexivity|reflexivity || exact I]
    | solve [auto with benign] ].

Lemma benign_create_camera_blueprint (role_name blueprint fov : string) :
  benign (create_camera_blueprint role_name blueprint fov).
Proof. unfold create_camera_blueprint. benign. Qed.

Lemma benign_Transform : benign Transform.
Proof. unfold Transform. benign. Qed.

Lemma benign_loginfo (msg : string) : benign (loginfo msg).
Proof. unfold loginfo. benign. Qed.

Lemma benign_listen (cb : callback) (a : actor) :
  wired (Listen a cb) -> benign (listen cb a).
Proof.
  intros Hok. unfold listen. apply benign_bind; [apply benign_ext|intros _].
  by apply benign_emit.
Qed.

Lemma Inv_Exit (k : nat) (s : frame) : k <= 5 -> Inv k k s -> Exit s.
Proof. intros Hk HI. by exists k. Qed.

Lemma Inv_benign (kv kt : nat) (s : frame) (w : world) (evs : list event) :
  Inv kv kt s ->
  trace w = (trace (env s) ++ evs)%list ->
  spawned evs = [] -> destroyed evs = [] -> Forall wired evs ->
  Inv kv kt {| vars := vars s; env := w |}.
Proof.
  intros (Hv & Hs & Hd & Hl) Ht Hs' Hd' Hl'. unfold Inv. simpl.
  rewrite Ht, spawned_app, destroyed_app, Hs, Hd, Hs', Hd', app_nil_r.
  repeat split; try done. by apply Forall_app.
Qed.

Lemma hoare_benign {A} (m : M world A) (k : nat) :
  benign m -> k <= 5 ->
  hoare (Inv k k) (lift m) (fun _ => Inv k k) Exit.
Proof.
  intros Hm Hk s HI. unfold lift.
  destruct (Hm (env s)) as (evs & Ht & Hs & Hd & Hl).
  destruct (m (env s)) as [r w]. simpl in Ht.
  pose proof (Inv_benign k k s w evs HI Ht Hs Hd Hl) as HI'.
  destruct r; [done|by apply (Inv_Exit k)..].
Qed.

Lemma hoare_benign_no_return {A} (m : M world A) (k : nat) :
  benign m -> k <= 5 -> (forall w a, fst (m w) <> Ok a) ->
  hoare (Inv k k) (lift m) (fun _ _ => False) Exit.
Proof.
  intros Hm Hk Hno s HI. pose proof (hoare_benign m k Hm Hk s HI) as H.
  unfold lift in *. specialize (Hno (env s)).
  destruct (m (env s)) as [[a|e|] w]; [by destruct (Hno a)|done..].
Qed.

Lemma hoare_gets_var {B} (f : locals -> option actor) (kv kt : nat)
    (k : option actor -> M frame B) (Q : B -> frame -> Prop)
    (E : frame -> Prop) :
  hoare (Inv kv kt) (k (f (stage_vars kv))) Q E ->
  hoare (Inv kv kt) (bind (gets (fun s => f (vars s))) k) Q E.
Proof.
  intros H s HI. unfold bind, gets. destruct (HI) as [Hv _]. rewrite Hv.
  by apply H.
Qed.

Lemma Inv_spawn (k : nat) (a : actor) (v : option actor) (s : frame)
    (w : world) :
  all_actors !! k = Some a ->
  wired (Spawned a v) ->
  Inv k k s ->
  trace w = (trace (env s) ++ [Spawned a v])%list ->
  Inv k (S k) {| vars := vars s; env := w |}.
Proof.
  intros Ha Hw (Hv & Hs & Hd & Hl) Ht. unfold Inv. cbn [vars env].
  rewrite Ht, spawned_app, destroyed_app, Hs, Hd, (take_S_r _ _ _ Ha).
  repeat split; try done. apply Forall_app. split; [done|].
  by repeat constructor.
Qed.

Lemma hoare_spawn (k : nat) (a : actor) (v : option actor) :
  all_actors !! k = Some a ->
  wired (Spawned a v) ->
  hoare (Inv k k) (lift (spawn_actor a v))
    (fun a' s => a' = a /\ Inv k (S k) s) Exit.
Proof.
  intros Ha Hw s HI. unfold lift, spawn_actor, bind, ext, emit, modify, ret.
  assert (k <= 5) as Hk.
  { apply lookup_lt_Some in Ha. simpl in Ha. lia. }
  cbn [fst snd]. destruct (head (script (env s))) as [[|e]|].
  2:{ apply (Inv_Exit k); [done|].
      apply (Inv_benign k k s _ []); try done. cbn. by rewrite app_nil_r. }
  all: split; [done|]; by apply (Inv_spawn k a v).
Qed.

Lemma hoare_assign (kv : nat) (a a' : actor) (f : option actor -> locals -> locals) :
  f (Some a) (stage_vars kv) = stage_vars (S kv) ->
  hoare (fun s => a' = a /\ Inv kv (S kv) s) (assign (f (Some a')))
    (fun _ => Inv (S kv) (S kv)) Exit.
Proof.
  intros Hf s [-> (Hv & Hs & Hd & Hl)]. unfold assign, modify. simpl.
  unfold Inv. simpl. rewrite Hv, Hf. done.
Qed.

Lemma hoare_ret_same {S A} (P : S -> Prop) (a : A) (E : S -> Prop) :
  hoare P (ret a) (fun _ => P) E.
Proof. intros s HP. exact HP. Qed.

#[local] Hint Resolve benign_create_camera_blueprint benign_Transform
  benign_loginfo : benign.

Lemma wait_for_ticks_never_return (w : world) (a : unit) :
  fst (wait_for_ticks w) <> Ok a.
Proof.
  unfold wait_for_ticks. pose proof (ticks_never_return (script w) a) as H.
  by destruct (ticks (script w)).
Qed.

Ltac hleaf :=
  cbv beta;
  first
    [ apply hoare_benign; [solve [benign]|lia]
    | apply hoare_benign; [apply benign_listen; reflexivity|lia]
    | eapply hoare_spawn; reflexivity
    | eapply hoare_assign; reflexivity
    | apply hoare_ret_same
    | apply hoare_benign_no_return;
        [solve [benign]|lia|apply wait_for_ticks_never_return]
    | eapply hoare_bind; [hleaf|intros ?; hleaf]
    | match goal with
      | |- hoare _ (if ?b then _ else _) _ _ => destruct b; hleaf
      end ].

Ltac hstep :=
  cbv beta;
  lazymatch goal with
  | |- hoare _ (bind (gets (fun s => _ (vars s))) _) _ _ =>
      apply hoare_gets_var;
      cbn [stage_vars ego_vehicle camera_main_rgb
           camera_main_semantic_segmentation camera_main_depth
           camera_3pv_rgb Nat.leb method]
  | |- hoare _ (bind _ _) _ _ => eapply hoare_bind; [hleaf|intros ?]
  end.

(* the try block never returns; however it is left, the variables that are
   set are those of the actors spawned so far, in order *)
Lemma setup_and_run_exit :
  hoare (Inv 0 0) setup_and_run (fun _ _ => False) Exit.
Proof.
  unfold setup_and_run. repeat hstep. hleaf.
Qed.

(** ** main: the finally block *)

(* teardown calls destroy on the created actors in order, stops at the first
   call that raises and lets that exception out; it leaves the variables as
   they are *)
Lemma teardown_run (s : frame) :
  exists w',
    teardown s
      = (match first_failure (created (vars s)) (script (env s)) with
         | Some e => Raise e
         | None => Ok tt
         end, {| vars := vars s; env := w' |}) /\
    trace w'
      = (trace (env s)
         ++ map Destroy (attempted (created (vars s)) (script (env s)))
         ++ match first_failure (created (vars s)) (script (env s)) with
            | Some _ => []
            | None => [LogInfo "Ego vehicle and sensors destroyed"]
            end)%list.
Proof.
  destruct s as [[v1 v2 v3 v4 v5] [h rs t sm]].
  unfold teardown, bind, gets, destroy_if_set, lift, destroy, emit, modify,
    ext, loginfo, ret, created.
  destruct v1, v2, v3, v4, v5; simpl.
  all: repeat match goal with
         | |- context [head ?l] =>
             is_var l; destruct l as [|[|?] ?]; simpl
         end.
  all: eexists; split; [reflexivity|]; simpl.
  all: rewrite <- ?app_assoc; reflexivity.
Qed.

Lemma spawned_map_Destroy (l : list actor) : spawned (map Destroy l) = [].
Proof. induction l; simpl; done. Qed.

Lemma destroyed_map_Destroy (l : list actor) : destroyed (map Destroy l) = l.
Proof. induction l as [|a l IH]; csimpl; [done|]. by rewrite IH. Qed.

Lemma attempted_prefix (l : list actor) (rs : list reply) :
  exists n, n <= length l /\ attempted l rs = take n l.
Proof.
  revert rs. induction l as [|a l IH]; intros rs; simpl.
  - exists 0. done.
  - destruct (head rs) as [[|e]|].
    2:{ exists 1. split; [lia|reflexivity]. }
    all: destruct (IH (tail rs)) as (n & Hn & ->); exists (S n).
    all: split; [lia|done].
Qed.

Lemma attempted_calm (l : list actor) (rs : list reply) :
  calm (take (length l) rs) = true ->
  attempted l rs = l /\ first_failure l rs = None.
Proof.
  revert rs. induction l as [|a l IH]; intros rs Hcalm; simpl; [done|].
  destruct rs as [|[|e] rs]; simpl in *; try discriminate.
  - destruct (IH [] ltac:(by destruct (length l))) as [-> ->]. done.
  - destruct (IH rs Hcalm) as [-> ->]. done.
Qed.

Lemma attempted_failure (l : list actor) (rs : list reply) (n : nat)
    (e : exn) :
  n < length l -> rs !! n = Some (Throws e) -> calm (take n rs) = true ->
  attempted l rs = take (S n) l /\ first_failure l rs = Some e.
Proof.
  revert rs n. induction l as [|a l IH]; intros rs n Hn Hrs Hcalm;
    simpl in Hn; [lia|].
  destruct rs as [|r rs]; [done|]. destruct n as [|n]; simpl in *.
  - injection Hrs as ->. done.
  - destruct r as [|e']; [|discriminate].
    destruct (IH rs n ltac:(lia) Hrs Hcalm) as [-> ->]. done.
Qed.

Lemma Inv_start (h : store) (rs : list reply) (sm : simulator) :
  Inv 0 0 (start h rs sm).
Proof. repeat split. constructor. Qed.

Lemma created_stage (k : nat) :
  k <= 5 -> created (stage_vars k) = take k all_actors.
Proof. intros Hk. do 6 (destruct k as [|k]; [reflexivity|]). lia. Qed.

(* every way out of main: the try block was left by an exception, and the
   finally block ran from the state the try block left *)
Lemma main_exit (h : store) (rs : list reply) (sm : simulator)
    (r : result unit) (w' : world) :
  main (boot h rs sm) = (r, w') -> r <> Diverge ->
  exists e k,
    fst (setup_and_run (start h rs sm)) = Raise e /\
    k <= 5 /\
    created (vars (exit_state h rs sm)) = take k all_actors /\
    spawned (trace (env (exit_state h rs sm))) = take k all_actors /\
    destroyed (trace (env (exit_state h rs sm))) = [] /\
    Forall wired (trace (env (exit_state h rs sm))) /\
    r = Raise (default e (first_failure (created (vars (exit_state h rs sm)))
                            (script (env (exit_state h rs sm))))) /\
    trace w'
      = (trace (env (exit_state h rs sm))
         ++ map Destroy (attempted (created (vars (exit_state h rs sm)))
                           (script (env (exit_state h rs sm))))
         ++ match first_failure (created (vars (exit_state h rs sm)))
                  (script (env (exit_state h rs sm))) with
            | Some _ => []
            | None => [LogInfo "Ego vehicle and sensors destroyed"]
            end)%list.
Proof.
  unfold main, try_finally, exit_state.
  change {| vars := unset; env := boot h rs sm |} with (start h rs sm).
  pose proof (setup_and_run_exit (start h rs sm) (Inv_start h rs sm)) as HE.
  destruct (setup_and_run (start h rs sm)) as [[a|e|] s1]; simpl;
    [done| |by intros [= <- <-]].
  destruct HE as (k & Hk & Hv & Hs & Hd & Hl).
  destruct (teardown_run s1) as (w1 & -> & Ht).
  intros Hmain _. exists e, k. rewrite Hv, created_stage by done.
  rewrite Hv, created_stage in Ht by done.
  rewrite Hv, created_stage in Hmain by done.
  split; [done|]. split; [done|]. split; [done|]. split; [done|].
  split; [done|]. split; [done|].
  destruct (first_failure _ _); simpl in *; injection Hmain as <- <-; done.
Qed.

Lemma NoDup_take_all_actors (k : nat) : NoDup (take k all_actors).
Proof.
  apply (sublist_NoDup (take k all_actors) all_actors).
  - apply (bool_decide_unpack _). reflexivity.
  - apply sublist_take.
Qed.

(** C4, as the code has it: on every way out of main on which no destroy
    call itself raises, the finally block calls destroy exactly once on each
    actor that was created, in the order of the variables, calls it on no
    other, skips the variables still None without raising, and destroys no
    actor twice. *)
Theorem teardown_destroys_created_once (h : store) (rs : list reply)
    (sm : simulator) (r : result unit) (w' : world) :
  main (boot h rs sm) = (r, w') ->
  r <> Diverge ->
  calm (take (length (created (vars (exit_state h rs sm))))
          (script (env (exit_state h rs sm)))) = true ->
  destroyed (trace w') = created (vars (exit_state h rs sm)) /\
  spawned (trace w') = created (vars (exit_state h rs sm)) /\
  NoDup (destroyed (trace w')) /\
  r = fst (setup_and_run (start h rs sm)).
Proof.
  intros Hmain Hexit Hcalm.
  destruct (main_exit h rs sm r w' Hmain Hexit)
    as (e & k & Hbody & Hk & Hc & Hs & Hd & Hw & Hr & Ht).
  destruct (attempted_calm _ _ Hcalm) as [Ha Hf].
  rewrite Ha, Hf in Ht. rewrite Hf in Hr. simpl in Hr.
  rewrite Ht, !destroyed_app, !spawned_app, Hd, Hs, Hc.
  rewrite destroyed_map_Destroy, spawned_map_Destroy. simpl.
  rewrite !app_nil_r. repeat split; try done.
  - apply NoDup_take_all_actors.
  - congruence.
Qed.

(** C6, as the code has it: the destroy calls of the finally block are made
    one after the other. When the destroy call of the (n+1)-th created actor
    raises, the exception leaves main at once: the created actors up to that
    one have had destroy called, the remaining ones never have. *)
Theorem teardown_stops_at_first_failure (h : store) (rs : list reply)
    (sm : simulator) (r : result unit) (w' : world) (n : nat) (e : exn) :
  main (boot h rs sm) = (r, w') ->
  r <> Diverge ->
  n < length (created (vars (exit_state h rs sm))) ->
  script (env (exit_state h rs sm)) !! n = Some (Throws e) ->
  calm (take n (script (env (exit_state h rs sm)))) = true ->
  destroyed (trace w') = take (S n) (created (vars (exit_state h rs sm))) /\
  r = Raise e.
Proof.
  intros Hmain Hexit Hn Hrs Hcalm.
  destruct (main_exit h rs sm r w' Hmain Hexit)
    as (e0 & k & Hbody & Hk & Hc & Hs & Hd & Hw & Hr & Ht).
  destruct (attempted_failure _ _ n e Hn Hrs Hcalm) as [Ha Hf].
  rewrite Ha, Hf in Ht. rewrite Hf in Hr. simpl in Hr.
  rewrite Ht, !destroyed_app, Hd, destroyed_map_Destroy. simpl.
  by rewrite app_nil_r.
Qed.

(** C7, as the code has it: on every way out of main the actors are destroyed
    in the order they were spawned, the vehicle first and then the sensors
    attached to it. The actors spawned are the first k of the five, in the
    order of the source. The destroy calls are made on the spawned actors in
    that same order and stop only at a call that raises: they start with the
    vehicle whenever anything was spawned, and reach every spawned actor when
    no destroy call raises. No destroy call comes before the way out of the
    try block and no spawn after it, and every sensor spawned is attached to
    the vehicle. *)
Theorem teardown_destroys_vehicle_first (h : store) (rs : list reply)
    (sm : simulator) (r : result unit) (w' : world) :
  main (boot h rs sm) = (r, w') ->
  r <> Diverge ->
  (exists k, k <= 5 /\ spawned (trace w') = take k all_actors) /\
  destroyed (trace w')
    = attempted (spawned (trace w')) (script (env (exit_state h rs sm))) /\
  (exists n, n <= length (spawned (trace w')) /\
     (spawned (trace w') <> [] -> 0 < n) /\
     destroyed (trace w') = take n (spawned (trace w'))) /\
  (spawned (trace w') <> [] ->
   exists l, destroyed (trace w') = EgoVehicle :: l) /\
  (calm (take (length (spawned (trace w')))
          (script (env (exit_state h rs sm)))) = true ->
   destroyed (trace w') = spawned (trace w')) /\
  (exists t,
     trace w' = (trace (env (exit_state h rs sm)) ++ t)%list /\
     destroyed (trace (env (exit_state h rs sm))) = [] /\
     spawned t = []) /\
  (forall a p, In (Spawned a p) (trace w') -> a <> EgoVehicle ->
     p = Some EgoVehicle).
Proof.
  intros Hmain Hexit.
  destruct (main_exit h rs sm r w' Hmain Hexit)
    as (e & k & Hbody & Hk & Hc & Hs & Hd & Hw & Hr & Ht).
  rewrite Hc in Ht.
  set (rs' := script (env (exit_state h rs sm))) in *.
  assert (spawned (trace w') = take k all_actors) as Hsp.
  { rewrite Ht, !spawned_app, Hs, spawned_map_Destroy.
    destruct (first_failure (take k all_actors) rs'); simpl; by rewrite ?app_nil_r. }
  assert (destroyed (trace w') = attempted (take k all_actors) rs') as Hde.
  { rewrite Ht, !destroyed_app, Hd, destroyed_map_Destroy.
    destruct (first_failure (take k all_actors) rs'); simpl; by rewrite ?app_nil_r. }
  rewrite Hsp, Hde.
  split; [by exists k|]. split; [done|]. split; [|split; [|split; [|split]]].
  - destruct (attempted_prefix (take k all_actors) rs') as (n & Hn & Ha).
    exists n. split; [done|]. split; [|done].
    intros Hne. destruct n as [|n]; [|lia].
    destruct (take k all_actors) as [|a l]; [done|]. simpl in Ha.
    discriminate.
  - intros Hne. destruct k as [|k]; [done|]. simpl. eauto.
  - intros Hcalm. by destruct (attempted_calm _ _ Hcalm) as [-> _].
  - eexists. split; [exact Ht|]. split; [done|].
    rewrite spawned_app, spawned_map_Destroy.
    by destruct (first_failure (take k all_actors) rs').
  - intros a p Hin Ha. rewrite Ht in Hin.
    apply in_app_or in Hin as [Hin|Hin].
    + rewrite List.Forall_forall in Hw. specialize (Hw _ Hin).
      destruct a; simpl in Hw; done.
    + apply in_app_or in Hin as [Hin|Hin].
      * apply in_map_iff in Hin as (x & Hx & _). discriminate.
      * destruct (first_failure (take k all_actors) rs'); simpl in Hin; [done|].
        destruct Hin as [Hin|[]]. discriminate.
Qed.

(** ** The callbacks main registers *)

Lemma main_wired (h : store) (rs : list reply) (sm : simulator)
    (r : result unit) (w0 : world) :
  main (boot h rs sm) = (r, w0) -> Forall wired (trace w0).
Proof.
  unfold main, try_finally.
  change {| vars := unset; env := boot h rs sm |} with (start h rs sm).
  pose proof (setup_and_run_exit (start h rs sm) (Inv_start h rs sm)) as HE.
  destruct (setup_and_run (start h rs sm)) as [[a|e|] s1]; simpl; [done| |].
  - destruct HE as (k & Hk & Hv & Hs & Hd & Hl).
    destruct (teardown_run s1) as (w1 & -> & Ht).
    intros Hmain.
    assert (trace w0 = trace w1) as ->.
    { destruct (first_failure _ _); simpl in Hmain; by injection Hmain as <- <-. }
    rewrite Ht. apply Forall_app. split; [done|].
    apply Forall_app. split.
    + apply List.Forall_forall. intros ev (x & <- & _)%in_map_iff. exact I.
    + destruct (first_failure _ _); by repeat constructor.
  - intros [= <- <-]. destruct HE as (k & Hk & Hv & Hs & Hd & Hl). done.
Qed.

Ltac finish_events :=
  first
    [ exists []; simpl; rewrite app_nil_r;
      split; [reflexivity|]; split; [constructor|]; split; [simpl; lia|];
      reflexivity
    | eexists; rewrite <- ?app_assoc; simpl;
      split; [reflexivity|]; split; [by repeat constructor|];
      split; [simpl; lia|]; reflexivity ].

(* whatever the collaborators answer, publish_image leaves only events of its
   own channel, and at most one message *)
Lemma publish_image_events (img : CarlaImage) (topic : string) (w : world) :
  exists evs,
    trace (snd (publish_image img topic w)) = (trace w ++ evs)%list /\
    Forall (on_topic topic) evs /\
    length (publishes evs) <= 1 /\
    heap (snd (publish_image img topic w)) = heap w.
Proof.
  destruct w as [h rs t sm].
  unfold publish_image, bind, try_except, gets, of_result, cv2_to_imgmsg,
    Publisher, publish, load_local, logerr, emit, modify, ext, ret, raise.
  simpl. destruct (get_cv_image h img) as [a|e|]; simpl.
  - destruct rs as [|[|[]] [|[|[]] [|[|[]] rs]]]; simpl; finish_events.
  - destruct e; simpl; try finish_events.
    destruct rs as [|[|[]] [|[|[]] rs]]; simpl; finish_events.
  - finish_events.
Qed.

(** C9: the callback main registers for an rgb sensor (camera_main_rgb,
    camera_3pv_rgb) is publish_image on the sensor's base channel. Whatever
    happens, a capture leaves no event but on that channel, converts nothing
    and publishes at most once; when nothing fails it publishes exactly
    once. *)
Theorem rgb_capture_publishes_once
    (converted : ColorConverter -> list byte -> nat -> byte)
    (h : store) (rs : list reply) (sm : simulator) (r : result unit)
    (w0 : world) (a : actor) (cb : callback) :
  main (boot h rs sm) = (r, w0) ->
  In (Listen a cb) (trace w0) ->
  a = CameraMainRgb \/ a = Camera3pvRgb ->
  exists topic,
    (topic = "camera_main_rgb" \/ topic = "camera_3pv_rgb") /\
    cb = CbPublishImage topic /\
    (forall img w, exists evs,
       trace (snd (run_callback converted cb img w)) = (trace w ++ evs)%list /\
       Forall (on_topic topic) evs /\
       length (publishes evs) <= 1 /\
       heap (snd (run_callback converted cb img w)) = heap w) /\
    (forall img w,
       length (heap w (raw_data img)) = height img * width img * 4 ->
       calm (script w) = true ->
       exists w',
         run_callback converted cb img w = (Ok tt, w') /\
         trace w' = (trace w ++
           [NewPublisher topic;
            Publish topic (imgmsg (heap w) (rgb_view img) "rgb8")])%list).
Proof.
  intros Hmain Hin Ha.
  pose proof (main_wired h rs sm r w0 Hmain) as Hw.
  rewrite List.Forall_forall in Hw. specialize (Hw _ Hin).
  destruct Ha as [-> | ->]; simpl in Hw; subst cb.
  - exists "camera_main_rgb". split; [by left|]. split; [done|]. split.
    + intros img w. apply publish_image_events.
    + intros img w Hlen Hcalm. simpl.
      destruct (publish_image_calm img "camera_main_rgb" w Hlen Hcalm)
        as (w' & Hrun & _ & _ & _ & Ht).
      by exists w'.
  - exists "camera_3pv_rgb". split; [by right|]. split; [done|]. split.
    + intros img w. apply publish_image_events.
    + intros img w Hlen Hcalm. simpl.
      destruct (publish_image_calm img "camera_3pv_rgb" w Hlen Hcalm)
        as (w' & Hrun & _ & _ & _ & Ht).
      by exists w'.
Qed.

(** * Concrete runs *)

Lemma get_cv_image_rgb_of_bgra_witness :
  length (store_1x2 (raw_data frame_1x2))
    = height frame_1x2 * width frame_1x2 * 4 /\
  exists a,
    get_cv_image store_1x2 frame_1x2 = Ok a /\
    shape a = [height frame_1x2; width frame_1x2; 3] /\
    length (tobytes store_1x2 a) = height frame_1x2 * width frame_1x2 * 3 /\
    forall i j c, i < height frame_1x2 -> j < width frame_1x2 -> c < 3 ->
      is_Some (store_1x2 (raw_data frame_1x2)
                 !! ((i * width frame_1x2 + j) * 4 + (2 - c))) /\
      getitem store_1x2 a i j c
        = store_1x2 (raw_data frame_1x2)
            !! ((i * width frame_1x2 + j) * 4 + (2 - c)) /\
      tobytes store_1x2 a !! ((i * width frame_1x2 + j) * 3 + c)
        = store_1x2 (raw_data frame_1x2)
            !! ((i * width frame_1x2 + j) * 4 + (2 - c)).
Proof.
  split; [reflexivity|].
  apply (get_cv_image_rgb_of_bgra store_1x2 frame_1x2). reflexivity.
Defined.

(* the frame of the 1 x 2 example, read as an array *)
Example get_cv_image_1x2 :
  tobytes store_1x2 (rgb_view frame_1x2)
    = [Byte.x03; Byte.x02; Byte.x01; Byte.x07; Byte.x06; Byte.x05].
Proof. reflexivity. Qed.

Lemma get_cv_image_size_mismatch_witness :
  length (heap (world_1x2 []) (raw_data {| raw_data := 0; height := 1; width := 3 |}))
    <> 1 * 3 * 4 /\
  get_cv_image (heap (world_1x2 [])) {| raw_data := 0; height := 1; width := 3 |}
    = Raise (ValueError 8 [1; 3; 4]) /\
  publish_image {| raw_data := 0; height := 1; width := 3 |}
      "camera_main_rgb" (world_1x2 [])
    = (Raise (ValueError 8 [1; 3; 4]), world_1x2 []).
Proof.
  split; [simpl; lia|].
  apply (get_cv_image_size_mismatch (world_1x2 [])
           {| raw_data := 0; height := 1; width := 3 |} "camera_main_rgb").
  simpl. lia.
Defined.

Lemma publish_image_conversion_failure_raises_witness :
  length (heap (world_1x2 [Throws (CvBridgeError "encoding")])
            (raw_data frame_1x2))
    = height frame_1x2 * width frame_1x2 * 4 /\
  script (world_1x2 [Throws (CvBridgeError "encoding")])
    = Throws (CvBridgeError "encoding") :: [] /\
  calm [] = true /\
  exists w',
    publish_image frame_1x2 "camera_main_rgb"
        (world_1x2 [Throws (CvBridgeError "encoding")])
      = (Raise (UnboundLocalError "image_message"), w') /\
    trace w'
      = (trace (world_1x2 [Throws (CvBridgeError "encoding")])
         ++ [LogErr (CvBridgeError "encoding");
             NewPublisher "camera_main_rgb"])%list.
Proof.
  split; [reflexivity|]. split; [reflexivity|]. split; [reflexivity|].
  apply (publish_image_conversion_failure_raises frame_1x2 "camera_main_rgb"
           "encoding" [] (world_1x2 [Throws (CvBridgeError "encoding")]));
    reflexivity.
Defined.

(** C8, the claim as stated fails: the array returned for the 1 x 2 frame
    holds 03 02 01 07 06 05; once the buffer is converted in place the same
    array holds ff in every element. *)
Lemma get_cv_image_output_changes_with_buffer :
  exists a w',
    get_cv_image (heap (world_1x2 [])) frame_1x2 = Ok a /\
    convert whiten frame_1x2 Depth (world_1x2 []) = (Ok tt, w') /\
    tobytes (heap (world_1x2 [])) a
      = [Byte.x03; Byte.x02; Byte.x01; Byte.x07; Byte.x06; Byte.x05] /\
    tobytes (heap w') a
      = [Byte.xff; Byte.xff; Byte.xff; Byte.xff; Byte.xff; Byte.xff] /\
    tobytes (heap w') a <> tobytes (heap (world_1x2 [])) a.
Proof.
  eexists. eexists. split; [reflexivity|]. split; [reflexivity|].
  split; [reflexivity|]. split; [reflexivity|]. discriminate.
Qed.

Lemma get_cv_image_view_follows_buffer_witness :
  length (heap (world_1x2 []) (raw_data frame_1x2))
    = height frame_1x2 * width frame_1x2 * 4 /\
  get_cv_image (heap (world_1x2 [])) frame_1x2 = Ok (rgb_view frame_1x2) /\
  convert whiten frame_1x2 Depth (world_1x2 [])
    = (Ok tt, snd (convert whiten frame_1x2 Depth (world_1x2 []))) /\
  0 < height frame_1x2 /\ 1 < width frame_1x2 /\ 2 < 3 /\
  getitem (heap (snd (convert whiten frame_1x2 Depth (world_1x2 []))))
      (rgb_view frame_1x2) 0 1 2
    = Some (whiten Depth (heap (world_1x2 []) (raw_data frame_1x2))
              ((0 * width frame_1x2 + 1) * 4 + (2 - 2))).
Proof.
  split; [reflexivity|]. split; [reflexivity|]. split; [reflexivity|].
  split; [simpl; lia|]. split; [simpl; lia|]. split; [lia|].
  apply (get_cv_image_view_follows_buffer whiten (world_1x2 [])
           (snd (convert whiten frame_1x2 Depth (world_1x2 [])))
           frame_1x2 Depth (rgb_view frame_1x2) 0 1 2);
    first [reflexivity | simpl; lia].
Defined.

Lemma publish_image_and_viz_raw_then_viz_witness :
  (("depth" = "semantic_segmentation" /\ Depth = CityScapesPalette) \/
   ("depth" = "depth" /\ Depth = Depth)) /\
  length (heap (world_1x2 []) (raw_data frame_1x2))
    = height frame_1x2 * width frame_1x2 * 4 /\
  calm (script (world_1x2 [])) = true /\
  exists w',
    publish_image_and_viz whiten frame_1x2 "camera_main_depth" "depth"
        (world_1x2 []) = (Ok tt, w') /\
    heap w' = <[raw_data frame_1x2 :=
                  convert_bytes whiten Depth
                    (heap (world_1x2 []) (raw_data frame_1x2))]>
                (heap (world_1x2 [])) /\
    trace w' =
      (trace (world_1x2 []) ++
        [NewPublisher "camera_main_depth";
         Publish "camera_main_depth"
           (imgmsg (heap (world_1x2 [])) (rgb_view frame_1x2) "rgb8");
         Convert (raw_data frame_1x2) Depth;
         NewPublisher ("camera_main_depth" +:+ "_viz");
         Publish ("camera_main_depth" +:+ "_viz")
           (imgmsg (heap w') (rgb_view frame_1x2) "rgb8")])%list /\
    forall i j c, i < height frame_1x2 -> j < width frame_1x2 -> c < 3 ->
      data (imgmsg (heap (world_1x2 [])) (rgb_view frame_1x2) "rgb8")
          !! ((i * width frame_1x2 + j) * 3 + c)
        = heap (world_1x2 []) (raw_data frame_1x2)
            !! ((i * width frame_1x2 + j) * 4 + (2 - c)) /\
      data (imgmsg (heap w') (rgb_view frame_1x2) "rgb8")
          !! ((i * width frame_1x2 + j) * 3 + c)
        = Some (whiten Depth (heap (world_1x2 []) (raw_data frame_1x2))
                  ((i * width frame_1x2 + j) * 4 + (2 - c))).
Proof.
  split; [right; split; reflexivity|]. split; [reflexivity|].
  split; [reflexivity|].
  apply (publish_image_and_viz_raw_then_viz whiten frame_1x2
           "camera_main_depth" "depth" Depth (world_1x2 []));
    [right; split; reflexivity|reflexivity|reflexivity].
Defined.

(* the two messages of a depth capture of the 1 x 2 frame *)
Example publish_image_and_viz_1x2 :
  publishes (trace (snd (publish_image_and_viz whiten frame_1x2
                           "camera_main_depth" "depth" (world_1x2 []))))
  = [("camera_main_depth",
      {| msg_height := 1; msg_width := 2; encoding := "rgb8";
         data := [Byte.x03; Byte.x02; Byte.x01;
                  Byte.x07; Byte.x06; Byte.x05] |});
     ("camera_main_depth_viz",
      {| msg_height := 1; msg_width := 2; encoding := "rgb8";
         data := [Byte.xff; Byte.xff; Byte.xff;
                  Byte.xff; Byte.xff; Byte.xff] |})].
Proof. reflexivity. Qed.

Lemma publish_image_and_viz_other_kind_witness :
  "rgb" <> "semantic_segmentation" /\
  "rgb" <> "depth" /\
  length (heap (world_1x2 []) (raw_data frame_1x2))
    = height frame_1x2 * width frame_1x2 * 4 /\
  calm (script (world_1x2 [])) = true /\
  exists w',
    publish_image_and_viz whiten frame_1x2 "camera_main_rgb" "rgb"
        (world_1x2 []) = (Ok tt, w') /\
    heap w' = heap (world_1x2 []) /\
    trace w' =
      (trace (world_1x2 []) ++
        [NewPublisher "camera_main_rgb";
         Publish "camera_main_rgb"
           (imgmsg (heap (world_1x2 [])) (rgb_view frame_1x2) "rgb8");
         NewPublisher ("camera_main_rgb" +:+ "_viz");
         Publish ("camera_main_rgb" +:+ "_viz")
           (imgmsg (heap (world_1x2 [])) (rgb_view frame_1x2) "rgb8")])%list.
Proof.
  split; [discriminate|]. split; [discriminate|]. split; [reflexivity|].
  split; [reflexivity|].
  apply (publish_image_and_viz_other_kind whiten frame_1x2
           "camera_main_rgb" "rgb" (world_1x2 []));
    [discriminate|discriminate|reflexivity|reflexivity].
Defined.

(** C4, the claim as stated fails: the vehicle and two sensors are created,
    the destroy call of the first sensor times out, and the second sensor,
    though created, is never destroyed. *)
Lemma teardown_leaves_created_actor :
  created (vars (exit_state store_1x2 teardown_cut_short town))
    = [EgoVehicle; CameraMainRgb; CameraMainSemanticSegmentation] /\
  spawned (trace (snd (main (boot store_1x2 teardown_cut_short town))))
    = [EgoVehicle; CameraMainRgb; CameraMainSemanticSegmentation] /\
  destroyed (trace (snd (main (boot store_1x2 teardown_cut_short town))))
    = [EgoVehicle; CameraMainRgb] /\
  fst (main (boot store_1x2 teardown_cut_short town))
    = Raise (RuntimeError "time-out").
Proof. repeat split; vm_compute; reflexivity. Qed.

(* teardown after the third sensor failed to spawn *)
Lemma teardown_destroys_created_once_witness :
  main (boot store_1x2 third_sensor_fails town)
    = (Raise (RuntimeError "spawn failed"),
       snd (main (boot store_1x2 third_sensor_fails town))) /\
  Raise (RuntimeError "spawn failed") <> Diverge (A := unit) /\
  calm (take (length (created (vars (exit_state store_1x2 third_sensor_fails
                                        town))))
          (script (env (exit_state store_1x2 third_sensor_fails town))))
    = true /\
  destroyed (trace (snd (main (boot store_1x2 third_sensor_fails town))))
    = created (vars (exit_state store_1x2 third_sensor_fails town)) /\
  spawned (trace (snd (main (boot store_1x2 third_sensor_fails town))))
    = created (vars (exit_state store_1x2 third_sensor_fails town)) /\
  NoDup (destroyed
           (trace (snd (main (boot store_1x2 third_sensor_fails town))))) /\
  Raise (RuntimeError "spawn failed")
    = fst (setup_and_run (start store_1x2 third_sensor_fails town)).
Proof.
  split; [vm_compute; reflexivity|]. split; [discriminate|].
  split; [vm_compute; reflexivity|].
  apply (teardown_destroys_created_once store_1x2 third_sensor_fails town
           (Raise (RuntimeError "spawn failed"))
           (snd (main (boot store_1x2 third_sensor_fails town))));
    [vm_compute; reflexivity|discriminate|vm_compute; reflexivity].
Defined.

Example teardown_after_third_sensor_fails :
  created (vars (exit_state store_1x2 third_sensor_fails town))
    = [EgoVehicle; CameraMainRgb; CameraMainSemanticSegmentation] /\
  destroyed (trace (snd (main (boot store_1x2 third_sensor_fails town))))
    = [EgoVehicle; CameraMainRgb; CameraMainSemanticSegmentation].
Proof. split; vm_compute; reflexivity. Qed.

(** C6, the claim as stated fails: all five actors are created, the destroy
    call of the vehicle times out, and no destroy is attempted on any
    sensor. *)
Lemma teardown_failure_skips_remaining :
  created (vars (exit_state store_1x2 simulator_gone town)) = all_actors /\
  script (env (exit_state store_1x2 simulator_gone town)) !! 0
    = Some (Throws (RuntimeError "time-out")) /\
  fst (main (boot store_1x2 simulator_gone town))
    = Raise (RuntimeError "time-out") /\
  destroyed (trace (snd (main (boot store_1x2 simulator_gone town))))
    = [EgoVehicle] /\
  ~ In CameraMainRgb
      (destroyed (trace (snd (main (boot store_1x2 simulator_gone town))))).
Proof.
  split; [vm_compute; reflexivity|]. split; [vm_compute; reflexivity|].
  split; [vm_compute; reflexivity|]. split; [vm_compute; reflexivity|].
  vm_compute. intros [H|[]]. discriminate.
Qed.

Lemma teardown_stops_at_first_failure_witness :
  main (boot store_1x2 simulator_gone town)
    = (Raise (RuntimeError "time-out"),
       snd (main (boot store_1x2 simulator_gone town))) /\
  Raise (RuntimeError "time-out") <> Diverge (A := unit) /\
  0 < length (created (vars (exit_state store_1x2 simulator_gone town))) /\
  script (env (exit_state store_1x2 simulator_gone town)) !! 0
    = Some (Throws (RuntimeError "time-out")) /\
  calm (take 0 (script (env (exit_state store_1x2 simulator_gone town))))
    = true /\
  destroyed (trace (snd (main (boot store_1x2 simulator_gone town))))
    = take 1 (created (vars (exit_state store_1x2 simulator_gone town))) /\
  Raise (RuntimeError "time-out") = Raise (A := unit) (RuntimeError "time-out").
Proof.
  split; [vm_compute; reflexivity|]. split; [discriminate|].
  split; [vm_compute; lia|]. split; [vm_compute; reflexivity|].
  split; [reflexivity|].
  apply (teardown_stops_at_first_failure store_1x2 simulator_gone town
           (Raise (RuntimeError "time-out"))
           (snd (main (boot store_1x2 simulator_gone town)))
           0 (RuntimeError "time-out"));
    [vm_compute; reflexivity|discriminate|vm_compute; lia
    |vm_compute; reflexivity|reflexivity].
Defined.

(** C7, the claim as stated fails: the main rgb camera is attached to the
    vehicle, and the vehicle is destroyed first, before that camera and
    every other sensor. *)
Lemma vehicle_destroyed_before_its_sensors :
  In (Spawned CameraMainRgb (Some EgoVehicle))
     (trace (snd (main (boot store_1x2 interrupted town)))) /\
  destroyed (trace (snd (main (boot store_1x2 interrupted town))))
    = [EgoVehicle; CameraMainRgb; CameraMainSemanticSegmentation;
       CameraMainDepth; Camera3pvRgb].
Proof.
  split; [vm_compute; tauto|vm_compute; reflexivity].
Qed.

Lemma teardown_destroys_vehicle_first_witness :
  main (boot store_1x2 interrupted town)
    = (Raise KeyboardInterrupt,
       snd (main (boot store_1x2 interrupted town))) /\
  Raise KeyboardInterrupt <> Diverge (A := unit) /\
  (exists k, k <= 5 /\
     spawned (trace (snd (main (boot store_1x2 interrupted town)))) = take k all_actors) /\
  destroyed (trace (snd (main (boot store_1x2 interrupted town))))
    = attempted (spawned (trace (snd (main (boot store_1x2 interrupted town)))))
        (script (env (exit_state store_1x2 interrupted town))) /\
  (exists n,
     n <= length (spawned (trace (snd (main (boot store_1x2 interrupted town))))) /\
     (spawned (trace (snd (main (boot store_1x2 interrupted town)))) <> [] -> 0 < n) /\
     destroyed (trace (snd (main (boot store_1x2 interrupted town))))
       = take n (spawned (trace (snd (main (boot store_1x2 interrupted town)))))) /\
  (spawned (trace (snd (main (boot store_1x2 interrupted town)))) <> [] ->
   exists l, destroyed (trace (snd (main (boot store_1x2 interrupted town)))) = EgoVehicle :: l) /\
  (calm (take (length (spawned (trace (snd (main (boot store_1x2 interrupted town))))))
          (script (env (exit_state store_1x2 interrupted town)))) = true ->
   destroyed (trace (snd (main (boot store_1x2 interrupted town)))) = spawned (trace (snd (main (boot store_1x2 interrupted town))))) /\
  (exists t,
     trace (snd (main (boot store_1x2 interrupted town))) = (trace (env (exit_state store_1x2 interrupted town)) ++ t)%list /\
     destroyed (trace (env (exit_state store_1x2 interrupted town))) = [] /\
     spawned t = []) /\
  (forall a p,
     In (Spawned a p) (trace (snd (main (boot store_1x2 interrupted town)))) ->
     a <> EgoVehicle -> p = Some EgoVehicle).
Proof.
  split; [vm_compute; reflexivity|]. split; [discriminate|].
  apply (teardown_destroys_vehicle_first store_1x2 interrupted town
           (Raise KeyboardInterrupt)
           (snd (main (boot store_1x2 interrupted town))));
    [vm_compute; reflexivity|discriminate].
Defined.

Lemma rgb_capture_publishes_once_witness :
  main (boot store_1x2 interrupted town)
    = (Raise KeyboardInterrupt,
       snd (main (boot store_1x2 interrupted town))) /\
  In (Listen CameraMainRgb (CbPublishImage "camera_main_rgb"))
     (trace (snd (main (boot store_1x2 interrupted town)))) /\
  (CameraMainRgb = CameraMainRgb \/ CameraMainRgb = Camera3pvRgb) /\
  exists topic,
    (topic = "camera_main_rgb" \/ topic = "camera_3pv_rgb") /\
    CbPublishImage "camera_main_rgb" = CbPublishImage topic /\
    (forall img w, exists evs,
       trace (snd (run_callback whiten (CbPublishImage "camera_main_rgb")
                     img w))
         = (trace w ++ evs)%list /\
       Forall (on_topic topic) evs /\
       length (publishes evs) <= 1 /\
       heap (snd (run_callback whiten (CbPublishImage "camera_main_rgb")
                    img w)) = heap w) /\
    (forall img w,
       length (heap w (raw_data img)) = height img * width img * 4 ->
       calm (script w) = true ->
       exists w',
         run_callback whiten (CbPublishImage "camera_main_rgb") img w
           = (Ok tt, w') /\
         trace w' = (trace w ++
           [NewPublisher topic;
            Publish topic (imgmsg (heap w) (rgb_view img) "rgb8")])%list).
Proof.
  split; [vm_compute; reflexivity|]. split; [vm_compute; tauto|].
  split; [left; reflexivity|].
  apply (rgb_capture_publishes_once whiten store_1x2 interrupted town
           (Raise KeyboardInterrupt)
           (snd (main (boot store_1x2 interrupted town)))
           CameraMainRgb (CbPublishImage "camera_main_rgb"));
    [vm_compute; reflexivity|vm_compute; tauto|left; reflexivity].
Defined.

(** * Further properties *)

(** ** publish_image: what each try block handles *)

Ltac run_publish_image :=
  unfold publish_image, bind, try_except, gets, of_result, cv2_to_imgmsg,
    Publisher, publish, load_local, logerr, emit, modify, ext, ret, raise;
  simpl.

(** X1: when publisher.publish raises ROSInterruptException, publish_image
    logs it and returns normally; the message was handed to publish once. *)
Theorem publish_image_interrupted_publish (img : CarlaImage)
    (topic msg : string) (rest : list reply) (w : world) :
  length (heap w (raw_data img)) = height img * width img * 4 ->
  script w = Normal :: Normal :: Throws (ROSInterruptException msg) :: rest ->
  exists w',
    publish_image img topic w = (Ok tt, w') /\
    heap w' = heap w /\ script w' = rest /\
    trace w' =
      (trace w ++
        [NewPublisher topic;
         Publish topic (imgmsg (heap w) (rgb_view img) "rgb8");
         LogErr (ROSInterruptException msg)])%list.
Proof.
  intros Hlen Hscript. destruct w as [h rs t sm]. simpl in *. subst rs.
  run_publish_image. rewrite get_cv_image_rgb_view by done. simpl.
  eexists. split; [reflexivity|]. simpl. by rewrite <- !app_assoc.
Qed.

(** X2: when rospy.Publisher itself raises ROSInterruptException,
    publish_image logs it and returns normally without calling publish. *)
Theorem publish_image_interrupted_publisher (img : CarlaImage)
    (topic msg : string) (rest : list reply) (w : world) :
  length (heap w (raw_data img)) = height img * width img * 4 ->
  script w = Normal :: Throws (ROSInterruptException msg) :: rest ->
  exists w',
    publish_image img topic w = (Ok tt, w') /\
    heap w' = heap w /\ script w' = rest /\
    publishes (trace w') = publishes (trace w) /\
    trace w' =
      (trace w ++
        [NewPublisher topic; LogErr (ROSInterruptException msg)])%list.
Proof.
  intros Hlen Hscript. destruct w as [h rs t sm]. simpl in *. subst rs.
  run_publish_image. rewrite get_cv_image_rgb_view by done. simpl.
  eexists. split; [reflexivity|]. simpl. rewrite <- !app_assoc.
  repeat split; try done. unfold publishes. rewrite omap_app. simpl.
  by rewrite app_nil_r.
Qed.

(** X3: an exception of cv2_to_imgmsg that is not a CvBridgeError is not
    handled: it leaves publish_image before any publisher is created, and
    nothing is logged or published. *)
Theorem publish_image_conversion_error_propagates (img : CarlaImage)
    (topic : string) (e : exn) (rest : list reply) (w : world) :
  length (heap w (raw_data img)) = height img * width img * 4 ->
  script w = Throws e :: rest ->
  is_CvBridgeError e = false ->
  exists w',
    publish_image img topic w = (Raise e, w') /\
    heap w' = heap w /\ script w' = rest /\ trace w' = trace w.
Proof.
  intros Hlen Hscript He. destruct w as [h rs t sm]. simpl in *. subst rs.
  run_publish_image. rewrite get_cv_image_rgb_view by done. simpl.
  rewrite He. eexists. split; [reflexivity|]. done.
Qed.

(** X4: an exception of publisher.publish that is not a
    ROSInterruptException is not handled: it leaves publish_image, and
    nothing is logged. *)
Theorem publish_image_publish_error_propagates (img : CarlaImage)
    (topic : string) (e : exn) (rest : list reply) (w : world) :
  length (heap w (raw_data img)) = height img * width img * 4 ->
  script w = Normal :: Normal :: Throws e :: rest ->
  is_ROSInterruptException e = false ->
  exists w',
    publish_image img topic w = (Raise e, w') /\
    heap w' = heap w /\ script w' = rest /\
    trace w' =
      (trace w ++
        [NewPublisher topic;
         Publish topic (imgmsg (heap w) (rgb_view img) "rgb8")])%list.
Proof.
  intros Hlen Hscript He. destruct w as [h rs t sm]. simpl in *. subst rs.
  run_publish_image. rewrite get_cv_image_rgb_view by done. simpl.
  rewrite He. eexists. split; [reflexivity|]. simpl. by rewrite <- !app_assoc.
Qed.

(** ** publish_image_and_viz: failures and footprint *)

Lemma get_cv_image_mismatch (h : store) (img : CarlaImage) :
  length (h (raw_data img)) <> height img * width img * 4 ->
  get_cv_image h img
    = Raise (ValueError (length (h (raw_data img)))
               [height img; width img; 4]).
Proof.
  intros Hlen. unfold get_cv_image, reshape, size, frombuffer. simpl.
  case_decide as Hsz; [lia|]. simpl. do 2 f_equal. lia.
Qed.

(** X5: on a frame whose buffer has the wrong size, publish_image_and_viz
    stops at the first publish_image: the ValueError leaves it, the buffer is
    not converted and nothing is published on either channel. *)
Theorem publish_image_and_viz_size_mismatch
    (converted : ColorConverter -> list byte -> nat -> byte)
    (img : CarlaImage) (topic camera_type : string) (w : world) :
  length (heap w (raw_data img)) <> height img * width img * 4 ->
  publish_image_and_viz converted img topic camera_type w
    = (Raise (ValueError (length (heap w (raw_data img)))
                [height img; width img; 4]), w).
Proof.
  intros Hlen. unfold publish_image_and_viz, bind at 1.
  unfold publish_image, bind, try_except, gets, of_result.
  rewrite get_cv_image_mismatch by done. reflexivity.
Qed.

(** X6: when carla_image.convert raises for a semantic_segmentation or depth
    capture, the exception leaves publish_image_and_viz: the unmodified frame
    has been published on the base channel and nothing is published on the
    _viz channel. *)
Theorem publish_image_and_viz_convert_failure
    (converted : ColorConverter -> list byte -> nat -> byte)
    (img : CarlaImage) (topic camera_type : string) (cc : ColorConverter)
    (e : exn) (rest : list reply) (w : world) :
  (camera_type = "semantic_segmentation" /\ cc = CityScapesPalette) \/
  (camera_type = "depth" /\ cc = Depth) ->
  length (heap w (raw_data img)) = height img * width img * 4 ->
  script w = Normal :: Normal :: Normal :: Throws e :: rest ->
  exists w',
    publish_image_and_viz converted img topic camera_type w = (Raise e, w') /\
    script w' = rest /\
    trace w' =
      (trace w ++
        [NewPublisher topic;
         Publish topic (imgmsg (heap w) (rgb_view img) "rgb8");
         Convert (raw_data img) cc])%list.
Proof.
  intros Hkind Hlen Hscript. destruct w as [h rs t sm]. simpl in *. subst rs.
  unfold publish_image_and_viz.
  destruct Hkind as [[-> ->]|[-> ->]]; repeat case_decide; try done.
  all: unfold convert; run_publish_image.
  all: rewrite get_cv_image_rgb_view by done; simpl.
  all: eexists; split; [reflexivity|]; simpl; by rewrite <- !app_assoc.
Qed.

Lemma publishes_app (t1 t2 : list event) :
  publishes (t1 ++ t2) = (publishes t1 ++ publishes t2)%list.
Proof. apply omap_app. Qed.

Lemma converts_app (t1 t2 : list event) :
  converts (t1 ++ t2) = (converts t1 ++ converts t2)%list.
Proof. apply omap_app. Qed.

Lemma on_topic_relay (topic t : string) (b : loc) (evs : list event) :
  t = topic \/ t = topic +:+ "_viz" ->
  Forall (on_topic t) evs ->
  Forall (relay_event topic b) evs /\ converts evs = [].
Proof.
  intros Ht. induction 1 as [|ev evs Hev _ [IH1 IH2]]; [done|].
  destruct ev; simpl in Hev; try done; subst.
  all: split; [constructor; [simpl; done|done]|done].
Qed.

(* what convert leaves, whether it returns or raises *)
Lemma convert_events (converted : ColorConverter -> list byte -> nat -> byte)
    (img : CarlaImage) (cc : ColorConverter) (w : world) :
  trace (snd (convert converted img cc w))
    = (trace w ++ [Convert (raw_data img) cc])%list /\
  (forall b, b <> raw_data img ->
     heap (snd (convert converted img cc w)) b = heap w b) /\
  length (heap (snd (convert converted img cc w)) (raw_data img))
    = length (heap w (raw_data img)).
Proof.
  unfold convert, bind, emit, modify, ext. simpl.
  destruct (head (script w)) as [[|e]|]; simpl; try done.
  all: split; [done|]; split.
  all: try (intros b Hb; by rewrite fn_lookup_insert_ne).
  all: by rewrite fn_lookup_insert, length_convert_bytes.
Qed.

(** X7: whatever the collaborators answer and whatever the frame,
    publish_image_and_viz leaves only logged errors, handles and messages on
    its two channels and the conversion of its own frame; it publishes at most
    twice and converts at most once, keeps the length of the frame's buffer
    and touches no other buffer. *)
Theorem publish_image_and_viz_footprint
    (converted : ColorConverter -> list byte -> nat -> byte)
    (img : CarlaImage) (topic camera_type : string) (w : world) :
  exists evs,
    trace (snd (publish_image_and_viz converted img topic camera_type w))
      = (trace w ++ evs)%list /\
    Forall (relay_event topic (raw_data img)) evs /\
    length (publishes evs) <= 2 /\
    length (converts evs) <= 1 /\
    (forall b, b <> raw_data img ->
       heap (snd (publish_image_and_viz converted img topic camera_type w)) b
         = heap w b) /\
    length (heap (snd (publish_image_and_viz converted img topic camera_type w))
              (raw_data img))
      = length (heap w (raw_data img)).
Proof.
  unfold publish_image_and_viz, bind.
  destruct (publish_image_events img topic w) as (evs1 & Ht1 & Hf1 & Hp1 & Hh1).
  destruct (on_topic_relay topic topic (raw_data img) evs1 (or_introl eq_refl)
              Hf1) as [Hr1 Hc1].
  destruct (publish_image img topic w) as [[[]|e|] w1]; cbn [snd] in *.
  2,3: exists evs1; rewrite Hc1, Hh1; cbn [length]; repeat split;
       (done || lia).
  set (m2 := if decide (camera_type = "semantic_segmentation")
             then convert converted img CityScapesPalette
             else if decide (camera_type = "depth")
                  then convert converted img Depth else ret tt).
  assert (exists evs2,
            trace (snd (m2 w1)) = (trace w1 ++ evs2)%list /\
            Forall (relay_event topic (raw_data img)) evs2 /\
            publishes evs2 = [] /\ length (converts evs2) <= 1 /\
            (forall b, b <> raw_data img -> heap (snd (m2 w1)) b = heap w1 b) /\
            length (heap (snd (m2 w1)) (raw_data img))
              = length (heap w1 (raw_data img)))
    as (evs2 & Ht2 & Hr2 & Hp2 & Hc2 & Hh2 & Hl2).
  { subst m2. repeat case_decide.
    - destruct (convert_events converted img CityScapesPalette w1)
        as (Ht & Hh & Hl).
      exists [Convert (raw_data img) CityScapesPalette].
      repeat split; try done. by repeat constructor.
    - destruct (convert_events converted img Depth w1) as (Ht & Hh & Hl).
      exists [Convert (raw_data img) Depth].
      repeat split; try done. by repeat constructor.
    - exists []. unfold ret. cbn [snd]. rewrite app_nil_r.
      repeat split; first [done | simpl; lia]. }
  destruct (m2 w1) as [[[]|e|] w2]; cbn [snd] in *.
  2,3: exists (evs1 ++ evs2)%list;
       rewrite Ht2, Ht1, <- app_assoc, publishes_app, converts_app,
         Hp2, Hc1, length_app, Hl2, Hh1;
       cbn [length app]; repeat split; try done; try lia;
       [by apply Forall_app|intros b Hb; rewrite Hh2 by done; by rewrite Hh1].
  destruct (publish_image_events img (topic +:+ "_viz") w2)
    as (evs3 & Ht3 & Hf3 & Hp3 & Hh3).
  destruct (on_topic_relay topic (topic +:+ "_viz") (raw_data img) evs3
              (or_intror eq_refl) Hf3) as [Hr3 Hc3].
  exists (evs1 ++ evs2 ++ evs3)%list.
  rewrite Ht3, Ht2, Ht1, <- !app_assoc, !publishes_app, !converts_app.
  rewrite Hp2, Hc1, Hc3, !length_app, Hh3, Hl2, Hh1. cbn [length app].
  repeat split; try done; try lia.
  - apply Forall_app. split; [done|]. by apply Forall_app.
  - intros b Hb. rewrite Hh2 by done. by rewrite Hh1.
Qed.

(** ** get_cv_image: edge cases and what the output depends on *)

Lemma pixel_index (n H W : nat) :
  n < H * W * 3 ->
  exists i j c, i < H /\ j < W /\ c < 3 /\ n = (i * W + j) * 3 + c.
Proof.
  intros Hn. assert (W <> 0) as HW by (intros ->; lia).
  exists (n / 3 / W), ((n / 3) mod W), (n mod 3).
  pose proof (Nat.div_mod_eq n 3) as Hn3.
  pose proof (Nat.div_mod_eq (n / 3) W) as HpW.
  pose proof (Nat.mod_upper_bound n 3 ltac:(lia)) as Hc.
  pose proof (Nat.mod_upper_bound (n / 3) W HW) as Hj.
  repeat split; try done; [|lia].
  apply Nat.Div0.div_lt_upper_bound. nia.
Qed.

(** X8: the array get_cv_image returns does not depend on the alpha bytes of
    the frame: two buffers of the right size that agree on every offset
    outside the alpha channel (offsets not congruent to 3 modulo 4) give the
    same array with the same bytes. *)
Theorem get_cv_image_ignores_alpha (h1 h2 : store) (img : CarlaImage) :
  length (h1 (raw_data img)) = height img * width img * 4 ->
  length (h2 (raw_data img)) = height img * width img * 4 ->
  (forall k, k mod 4 <> 3 -> h1 (raw_data img) !! k = h2 (raw_data img) !! k) ->
  exists a,
    get_cv_image h1 img = Ok a /\ get_cv_image h2 img = Ok a /\
    tobytes h1 a = tobytes h2 a.
Proof.
  intros Hl1 Hl2 Hagree. exists (rgb_view img).
  rewrite !get_cv_image_rgb_view by done. split; [done|]. split; [done|].
  apply list_eq. intros n.
  destruct (decide (n < height img * width img * 3)) as [Hn|Hn].
  - destruct (pixel_index n _ _ Hn) as (i & j & c & Hi & Hj & Hc & ->).
    unfold rgb_view. rewrite !tobytes_view_lookup by done.
    apply Hagree.
    replace ((i * width img + j) * 4 + (2 - c))
      with ((2 - c) + (i * width img + j) * 4) by lia.
    rewrite Nat.Div0.mod_add, Nat.mod_small by lia. lia.
  - unfold rgb_view.
    rewrite !lookup_ge_None_2; [done|rewrite tobytes_view_length by done; lia..].
Qed.

(** X9: a frame with no pixel (height or width zero, empty buffer) is not an
    error: get_cv_image returns an array that holds no byte. *)
Theorem get_cv_image_empty_frame (h : store) (img : CarlaImage) :
  height img * width img = 0 ->
  h (raw_data img) = [] ->
  exists a,
    get_cv_image h img = Ok a /\
    shape a = [height img; width img; 3] /\
    tobytes h a = [].
Proof.
  intros Hhw Hbuf.
  assert (length (h (raw_data img)) = height img * width img * 4) as Hlen.
  { rewrite Hbuf, Hhw. done. }
  exists (rgb_view img). rewrite get_cv_image_rgb_view by done.
  split; [done|]. split; [done|].
  apply length_zero_iff_nil. unfold rgb_view.
  rewrite tobytes_view_length by done. lia.
Qed.

(** ** main: every run *)

Lemma first_failure_calm (l : list actor) (rs : list reply) :
  first_failure l rs = None <-> calm (take (length l) rs) = true.
Proof.
  revert rs. induction l as [|a l IH]; intros rs; simpl; [done|].
  destruct rs as [|[|e] rs]; simpl.
  - rewrite IH. by destruct (length l).
  - apply IH.
  - done.
Qed.

Lemma attempted_nonempty (l : list actor) (rs : list reply) :
  l <> [] -> exists l' x, attempted l rs = (l' ++ [x])%list.
Proof.
  intros Hl. destruct l as [|a l]; [done|].
  destruct (attempted (a :: l) rs) as [|y l'] eqn:Hatt using rev_ind.
  - simpl in Hatt. discriminate.
  - by exists l', y.
Qed.

(* every run of main: the try block diverges, and main with it, or it is
   left by an exception and the finally block runs *)
Lemma main_outcome (h : store) (rs : list reply) (sm : simulator) :
  exists k,
    k <= 5 /\
    Inv k k (exit_state h rs sm) /\
    created (vars (exit_state h rs sm)) = take k all_actors /\
    ((fst (setup_and_run (start h rs sm)) = Diverge /\
      main (boot h rs sm) = (Diverge, env (exit_state h rs sm))) \/
     (exists e w',
        fst (setup_and_run (start h rs sm)) = Raise e /\
        main (boot h rs sm)
          = (Raise (default e (first_failure (take k all_actors)
                                 (script (env (exit_state h rs sm))))), w') /\
        trace w'
          = (trace (env (exit_state h rs sm))
             ++ map Destroy (attempted (take k all_actors)
                               (script (env (exit_state h rs sm))))
             ++ match first_failure (take k all_actors)
                      (script (env (exit_state h rs sm))) with
                | Some _ => []
                | None => [LogInfo "Ego vehicle and sensors destroyed"]
                end)%list)).
Proof.
  unfold main, try_finally, exit_state.
  change {| vars := unset; env := boot h rs sm |} with (start h rs sm).
  pose proof (setup_and_run_exit (start h rs sm) (Inv_start h rs sm)) as HE.
  destruct (setup_and_run (start h rs sm)) as [[a|e|] s1]; simpl; [done| |].
  - destruct HE as (k & Hk & HI). exists k. split; [done|]. split; [done|].
    destruct HI as (Hv & _). rewrite Hv, created_stage by done.
    split; [done|]. right.
    destruct (teardown_run s1) as (w1 & -> & Ht).
    rewrite Hv, created_stage in Ht by done.
    rewrite Hv, created_stage by done.
    exists e, w1. split; [done|]. split; [|done].
    by destruct (first_failure _ _).
  - destruct HE as (k & Hk & HI). exists k. split; [done|]. split; [done|].
    destruct HI as (Hv & _). rewrite Hv, created_stage by done.
    split; [done|]. by left.
Qed.

(** X10: main never returns normally: it runs forever or is left by an
    exception. *)
Theorem main_never_returns (h : store) (rs : list reply) (sm : simulator)
    (a : unit) :
  fst (main (boot h rs sm)) <> Ok a.
Proof.
  destruct (main_outcome h rs sm) as (k & _ & _ & _ & [[_ ->]|(e & w' & _ & -> & _)]);
    done.
Qed.

(** X11: in every run of main, whatever fails and wherever, the actors
    spawned are the first k of vehicle, main rgb, semantic segmentation,
    depth, third-person rgb, each once, and destroy has been called on the
    first n of them, each once, with n <= k: none is spawned or destroyed
    twice and none is destroyed that was not spawned. *)
Theorem main_spawns_and_destroys_in_order (h : store) (rs : list reply)
    (sm : simulator) :
  exists n k,
    n <= k /\ k <= 5 /\
    spawned (trace (snd (main (boot h rs sm)))) = take k all_actors /\
    destroyed (trace (snd (main (boot h rs sm)))) = take n all_actors.
Proof.
  destruct (main_outcome h rs sm)
    as (k & Hk & (Hv & Hs & Hd & Hw) & Hc
          & [[_ ->]|(e & w' & _ & -> & Ht)]); simpl.
  - exists 0, k. rewrite Hs, Hd. repeat split; (done || lia).
  - destruct (attempted_prefix (take k all_actors)
                (script (env (exit_state h rs sm)))) as (n & Hn & Ha).
    rewrite length_take in Hn. exists (n `min` k), k.
    rewrite Ht, !spawned_app, !destroyed_app, Hs, Hd.
    rewrite spawned_map_Destroy, destroyed_map_Destroy, Ha, take_take.
    destruct (first_failure _ _); simpl; rewrite ?app_nil_r;
      repeat split; (done || lia).
Qed.

(** X12: when main is left, the last thing it does is to log that the
    vehicle and the sensors are destroyed exactly when every destroy call it
    made returned; after a destroy call that raised, the line is not
    logged. *)
Theorem main_logs_destroyed_iff_teardown_completed (h : store)
    (rs : list reply) (sm : simulator) :
  fst (main (boot h rs sm)) <> Diverge ->
  list.last (trace (snd (main (boot h rs sm))))
    = Some (LogInfo "Ego vehicle and sensors destroyed")
  <-> calm (take (length (created (vars (exit_state h rs sm))))
             (script (env (exit_state h rs sm)))) = true.
Proof.
  intros Hexit.
  destruct (main_outcome h rs sm)
    as (k & Hk & _ & Hc & [[_ Hm]|(e & w' & _ & Hm & Ht)]);
    rewrite Hm in *; simpl in *; [done|].
  rewrite Hc, <- first_failure_calm.
  destruct (first_failure (take k all_actors) _) as [e'|] eqn:Hf.
  - split; [|done]. rewrite Ht, app_nil_r.
    destruct (attempted_nonempty (take k all_actors)
                (script (env (exit_state h rs sm)))) as (l' & x & ->).
    { intros Hnil. rewrite Hnil in Hf. done. }
    rewrite map_app, app_assoc. simpl. rewrite last_snoc. done.
  - split; [done|]. intros _. rewrite Ht, !app_assoc. apply last_snoc.
Qed.

(** X13: in every run of main no callback is registered on the vehicle, and
    the callback registered on the semantic segmentation or the depth camera
    is publish_image_and_viz with the sensor's own channel and the
    camera_type that names the same sensor. *)
Theorem viz_sensors_listen_with_own_kind (h : store) (rs : list reply)
    (sm : simulator) (a : actor) (cb : callback) :
  In (Listen a cb) (trace (snd (main (boot h rs sm)))) ->
  a <> EgoVehicle /\
  (a = CameraMainSemanticSegmentation \/ a = CameraMainDepth ->
   exists kind,
     cb = CbPublishImageAndViz ("camera_main_" +:+ kind) kind /\
     (a = CameraMainSemanticSegmentation /\ kind = "semantic_segmentation" \/
      a = CameraMainDepth /\ kind = "depth")).
Proof.
  intros Hin.
  pose proof (main_wired h rs sm _ _ (surjective_pairing _)) as Hw.
  rewrite List.Forall_forall in Hw. specialize (Hw _ Hin).
  destruct a; simpl in Hw; try done.
  all: split; [done|]; intros [Ha|Ha]; try discriminate.
  - exists "semantic_segmentation". split; [done|]. by left.
  - exists "depth". split; [done|]. by right.
Qed.

(** ** The tick loop *)

(** X14: the loop while True: world.wait_for_tick() ends at the first tick
    that raises, with that exception, and has then waited for exactly the
    ticks before it. *)
Theorem wait_for_ticks_ends_at_first_exception (w : world) (n : nat)
    (e : exn) (rest : list reply) :
  script w = (repeat Normal n ++ Throws e :: rest)%list ->
  wait_for_ticks w = (Raise e, set_script rest w).
Proof.
  intros Hscript. unfold wait_for_ticks. rewrite Hscript. clear Hscript.
  induction n as [|n IH]; simpl; [done|]. exact IH.
Qed.

(** X15: the loop runs forever exactly when no tick raises. *)
Theorem wait_for_ticks_diverges_iff_calm (w : world) :
  fst (wait_for_ticks w) = Diverge <-> calm (script w) = true.
Proof.
  unfold wait_for_ticks.
  induction (script w) as [|[|e] rs IH]; simpl; [done| |done].
  rewrite <- IH. by destruct (ticks rs).
Qed.

(** ** main: what it leaves alone *)

Lemma tame_ret {A} (a : A) : tame (ret a).
Proof. intros w. exists []. simpl. by rewrite app_nil_r. Qed.

Lemma tame_raise {A} (e : exn) : tame (raise (A := A) e).
Proof. intros w. exists []. simpl. by rewrite app_nil_r. Qed.

Lemma tame_gets {A} (f : world -> A) : tame (gets f).
Proof. intros w. exists []. simpl. by rewrite app_nil_r. Qed.

Lemma tame_ext : tame ext.
Proof. intros w. exists []. simpl. by rewrite app_nil_r. Qed.

Lemma tame_emit (ev : event) : lifecycle_event ev -> tame (emit ev).
Proof. intros Hev w. exists [ev]. simpl. repeat split; auto. Qed.

Lemma tame_bind {A B} (m : M world A) (k : A -> M world B) :
  tame m -> (forall a, tame (k a)) -> tame (bind m k).
Proof.
  intros Hm Hk w. unfold bind.
  destruct (Hm w) as (evs1 & Ht1 & Hl1 & Hh1).
  destruct (m w) as [[a|e|] w1]; cbn [snd] in *; [|by exists evs1..].
  destruct (Hk a w1) as (evs2 & Ht2 & Hl2 & Hh2).
  exists (evs1 ++ evs2)%list. rewrite Ht2, Ht1, <- app_assoc, Hh2, Hh1.
  repeat split; try done. by apply Forall_app.
Qed.

Lemma tame_random_choice {A} (l : list A) : tame (random_choice l).
Proof. destruct l; [apply tame_raise|apply tame_gets]. Qed.

Lemma tame_wait_for_ticks : tame wait_for_ticks.
Proof.
  intros w. exists []. unfold wait_for_ticks.
  destruct (ticks (script w)). simpl. by rewrite app_nil_r.
Qed.

Create HintDb tame.

#[local] Hint Resolve tame_ret tame_raise tame_gets tame_ext
  tame_random_choice tame_wait_for_ticks : tame.

Ltac tame :=
  repeat first
    [ apply tame_bind; [|intros ?]
    | apply tame_emit; exact I
    | solve [auto with tame] ].

Lemma ftame_lift {A} (m : M world A) : tame m -> ftame (lift m).
Proof.
  intros Hm s. destruct (Hm (env s)) as (evs & Ht & Hl & Hh).
  exists evs. unfold lift. by destruct (m (env s)).
Qed.

Lemma ftame_ret {A} (a : A) : ftame (ret a).
Proof. intros s. exists []. simpl. by rewrite app_nil_r. Qed.

Lemma ftame_gets {A} (f : frame -> A) : ftame (gets f).
Proof. intros s. exists []. simpl. by rewrite app_nil_r. Qed.

Lemma ftame_assign (f : locals -> locals) : ftame (assign f).
Proof. intros s. exists []. simpl. by rewrite app_nil_r. Qed.

Lemma ftame_bind {A B} (m : M frame A) (k : A -> M frame B) :
  ftame m -> (forall a, ftame (k a)) -> ftame (bind m k).
Proof.
  intros Hm Hk s. unfold bind.
  destruct (Hm s) as (evs1 & Ht1 & Hl1 & Hh1).
  destruct (m s) as [[a|e|] s1]; cbn [snd] in *; [|by exists evs1..].
  destruct (Hk a s1) as (evs2 & Ht2 & Hl2 & Hh2).
  exists (evs1 ++ evs2)%list. rewrite Ht2, Ht1, <- app_assoc, Hh2, Hh1.
  repeat split; try done. by apply Forall_app.
Qed.

Lemma ftame_method {A} (v : option actor) (k : actor -> M frame A) :
  (forall a, ftame (k a)) -> ftame (method v k).
Proof.
  intros Hk. destruct v as [a|]; simpl; [apply Hk|].
  intros s. exists []. simpl. by rewrite app_nil_r.
Qed.

Lemma ftame_try_finally {A} (m : M frame A) (fin : M frame unit) :
  ftame m -> ftame fin -> ftame (try_finally m fin).
Proof.
  intros Hm Hfin s. unfold try_finally.
  destruct (Hm s) as (evs1 & Ht1 & Hl1 & Hh1).
  destruct (m s) as [r s1]; cbn [snd] in *.
  destruct (Hfin s1) as (evs2 & Ht2 & Hl2 & Hh2).
  destruct r as [a|e|]; [| |by exists evs1].
  all: destruct (fin s1) as [[[]|e'|] s2]; cbn [snd] in *.
  all: exists (evs1 ++ evs2)%list; rewrite Ht2, Ht1, <- app_assoc, Hh2, Hh1.
  all: repeat split; try done; by apply Forall_app.
Qed.

Ltac ftame :=
  repeat first
    [ apply ftame_bind; [|intros ?]
    | apply ftame_lift; unfold create_camera_blueprint, Transform,
        spawn_actor, listen, destroy, loginfo; solve [tame]
    | apply ftame_gets
    | apply ftame_assign
    | apply ftame_ret
    | apply ftame_method; intros ?
    | match goal with
      | |- ftame (if ?b then _ else _) => destruct b
      | |- ftame (destroy_if_set ?v) => destruct v; cbn [destroy_if_set]
      end ].

Lemma ftame_setup_and_run : ftame setup_and_run.
Proof. unfold setup_and_run. ftame. Qed.

Lemma ftame_teardown : ftame teardown.
Proof. unfold teardown. ftame. Qed.

(** X16: main itself publishes nothing and converts nothing: whatever the
    collaborators answer, the only events it leaves are spawns, callback
    registrations, destroy calls and its two log lines, and it leaves every
    frame buffer as it is. *)
Theorem main_footprint (w : world) :
  exists evs,
    trace (snd (main w)) = (trace w ++ evs)%list /\
    Forall lifecycle_event evs /\
    publishes evs = [] /\ converts evs = [] /\
    heap (snd (main w)) = heap w.
Proof.
  destruct (ftame_try_finally _ _ ftame_setup_and_run ftame_teardown
              {| vars := unset; env := w |}) as (evs & Ht & Hl & Hh).
  cbn [env] in *. exists evs. unfold main.
  destruct (try_finally setup_and_run teardown _) as [r s]. cbn [snd] in *.
  repeat split; try done.
  - clear Ht. induction Hl as [|ev evs Hev _ IH]; [done|].
    destruct ev; simpl in Hev; done.
  - clear Ht. induction Hl as [|ev evs Hev _ IH]; [done|].
    destruct ev; simpl in Hev; done.
Qed.

(** ** The entry point *)

Lemma entry_run (out : list string) (w : world) :
  entry {| stdout := out; sys := w |}
  = match fst (main w) with
    | Ok a => (Ok a, {| stdout := (out ++ [done_line])%list;
                        sys := snd (main w) |})
    | Raise e =>
        (if is_KeyboardInterrupt e then Ok tt else Raise e,
         {| stdout := (out ++ [done_line])%list; sys := snd (main w) |})
    | Diverge => (Diverge, {| stdout := out; sys := snd (main w) |})
    end.
Proof.
  unfold entry, try_finally, try_except, in_world, print, modify, ret.
  cbn [sys stdout]. destruct (main w) as [[[]|e|] w']; cbn [fst snd];
    [done| |done].
  by destruct (is_KeyboardInterrupt e).
Qed.

(** X17: the block under if __name__ == '__main__' (lines 125-132), once it
    is entered: when the block ends it has printed the line done. last and
    once; it never ends with a KeyboardInterrupt or a ROSInterruptException,
    it ends normally only when such an interrupt left main, and every other
    exception of main leaves it. It runs forever, printing nothing, exactly
    when main does. The statements that run before the block (lines 5-14)
    are not part of it. *)
Theorem entry_outcome (out : list string) (h : store) (rs : list reply)
    (sm : simulator) :
  (fst (entry {| stdout := out; sys := boot h rs sm |}) = Diverge
   <-> fst (main (boot h rs sm)) = Diverge) /\
  (fst (entry {| stdout := out; sys := boot h rs sm |}) = Diverge ->
   stdout (snd (entry {| stdout := out; sys := boot h rs sm |})) = out) /\
  (fst (entry {| stdout := out; sys := boot h rs sm |}) <> Diverge ->
   stdout (snd (entry {| stdout := out; sys := boot h rs sm |}))
     = (out ++ [done_line])%list) /\
  (forall e, fst (entry {| stdout := out; sys := boot h rs sm |}) = Raise e ->
     is_KeyboardInterrupt e = false /\ fst (main (boot h rs sm)) = Raise e) /\
  (forall a, fst (entry {| stdout := out; sys := boot h rs sm |}) = Ok a ->
     exists e, fst (main (boot h rs sm)) = Raise e /\
               is_KeyboardInterrupt e = true).
Proof.
  rewrite entry_run.
  pose proof (main_outcome h rs sm) as (k & _ & _ & _ & Hcases).
  destruct Hcases as [[_ Hm]|(e & w' & _ & Hm & _)]; rewrite Hm; cbn [fst snd].
  - repeat split; done.
  - set (e' := default e _).
    destruct (is_KeyboardInterrupt e') eqn:He'; cbn [fst snd stdout].
    + repeat split; try done. intros a _. exists e'. split; [reflexivity|exact He'].
    + repeat split; try done.
      match goal with H : Raise _ = Raise _ |- _ => injection H as <- end.
      exact He'.
Qed.

(** X18: an interrupt (Ctrl-C, or rospy shutting down) while every destroy
    call returns ends the script normally: every spawned actor has been
    destroyed and the line done. is printed. *)
Theorem entry_interrupt_exits_cleanly (out : list string) (h : store)
    (rs : list reply) (sm : simulator) (e : exn) :
  fst (setup_and_run (start h rs sm)) = Raise e ->
  is_KeyboardInterrupt e = true ->
  calm (take (length (created (vars (exit_state h rs sm))))
          (script (env (exit_state h rs sm)))) = true ->
  exists w',
    entry {| stdout := out; sys := boot h rs sm |}
      = (Ok tt, {| stdout := (out ++ [done_line])%list; sys := w' |}) /\
    destroyed (trace w') = spawned (trace w').
Proof.
  intros Hbody He Hcalm. rewrite entry_run.
  pose proof (main_outcome h rs sm)
    as (k & Hk & (Hv & Hs & Hd & Hw) & Hc & Hcases).
  destruct Hcases as [[Hdiv _]|(e0 & w' & Hb & Hm & Ht)]; [congruence|].
  assert (e0 = e) as -> by congruence.
  rewrite Hc in Hcalm. destruct (attempted_calm _ _ Hcalm) as [Ha Hf].
  rewrite Hm, Hf. simpl. rewrite He. exists w'.
  split; [done|].
  rewrite Ht, Ha, Hf, !destroyed_app, !spawned_app, Hd, Hs.
  rewrite destroyed_map_Destroy, spawned_map_Destroy. simpl.
  by rewrite !app_nil_r.
Qed.

(** X19: a destroy call that raises during the shutdown after an interrupt
    is not swallowed: when its exception is not itself an interrupt, it
    replaces the interrupt and leaves the script, after the line done. is
    printed. *)
Theorem entry_failing_destroy_is_not_swallowed (out : list string)
    (h : store) (rs : list reply) (sm : simulator) (e0 e : exn) (n : nat) :
  fst (setup_and_run (start h rs sm)) = Raise e0 ->
  n < length (created (vars (exit_state h rs sm))) ->
  script (env (exit_state h rs sm)) !! n = Some (Throws e) ->
  calm (take n (script (env (exit_state h rs sm)))) = true ->
  is_KeyboardInterrupt e = false ->
  exists w',
    entry {| stdout := out; sys := boot h rs sm |}
      = (Raise e, {| stdout := (out ++ [done_line])%list; sys := w' |}).
Proof.
  intros Hbody Hn Hrs Hcalm He. rewrite entry_run.
  pose proof (main_outcome h rs sm) as (k & Hk & _ & Hc & Hcases).
  destruct Hcases as [[Hdiv _]|(e1 & w' & Hb & Hm & Ht)]; [congruence|].
  rewrite Hc in Hn.
  destruct (attempted_failure _ _ n e Hn Hrs Hcalm) as [_ Hf].
  rewrite Hm, Hf. simpl. rewrite He. by exists w'.
Qed.

(** ** The file run as a program *)

(* the prelude makes its nine calls one after the other and is left by the
   first one that raises *)
Lemma prelude_run (h : store) (rs : list reply) (sm : simulator) :
  (calm (take 9 rs) = true /\
   prelude (boot h rs sm) = (Ok tt, boot h (drop 9 rs) sm)) \/
  (exists n e,
     n < 9 /\ rs !! n = Some (Throws e) /\ calm (take n rs) = true /\
     prelude (boot h rs sm) = (Raise e, boot h (drop (S n) rs) sm)).
Proof.
  destruct rs as [|[|e] rs]; [left; split; reflexivity| |right; exists 0, e; split; [lia|]; split; [reflexivity|]; split; reflexivity].
  destruct rs as [|[|e] rs]; [left; split; reflexivity| |right; exists 1, e; split; [lia|]; split; [reflexivity|]; split; reflexivity].
  destruct rs as [|[|e] rs]; [left; split; reflexivity| |right; exists 2, e; split; [lia|]; split; [reflexivity|]; split; reflexivity].
  destruct rs as [|[|e] rs]; [left; split; reflexivity| |right; exists 3, e; split; [lia|]; split; [reflexivity|]; split; reflexivity].
  destruct rs as [|[|e] rs]; [left; split; reflexivity| |right; exists 4, e; split; [lia|]; split; [reflexivity|]; split; reflexivity].
  destruct rs as [|[|e] rs]; [left; split; reflexivity| |right; exists 5, e; split; [lia|]; split; [reflexivity|]; split; reflexivity].
  destruct rs as [|[|e] rs]; [left; split; reflexivity| |right; exists 6, e; split; [lia|]; split; [reflexivity|]; split; reflexivity].
  destruct rs as [|[|e] rs]; [left; split; reflexivity| |right; exists 7, e; split; [lia|]; split; [reflexivity|]; split; reflexivity].
  destruct rs as [|[|e] rs]; [left; split; reflexivity| |right; exists 8, e; split; [lia|]; split; [reflexivity|]; split; reflexivity].
  left; split; reflexivity.
Qed.

Lemma program_run (out : list string) (h : store) (rs : list reply)
    (sm : simulator) :
  program {| stdout := out; sys := boot h rs sm |}
  = match prelude (boot h rs sm) with
    | (Ok _, w) => entry {| stdout := out; sys := w |}
    | (Raise e, w) => (Raise e, {| stdout := out; sys := w |})
    | (Diverge, w) => (Diverge, {| stdout := out; sys := w |})
    end.
Proof.
  unfold program, bind, in_world. cbn [sys stdout].
  by destruct (prelude (boot h rs sm)) as [[[]|e|] w].
Qed.

(** X23: the file run as a program. Either the seven imports,
    rospy.init_node and CvBridge() (lines 5-14) all return, and the program
    goes on as the block of lines 125-132 does with what is left of the
    environment; or the first of these calls that raises ends the program
    with its exception, whatever it is: none of them sits in a try block, so
    nothing is printed, logged or spawned and main is never entered. *)
Theorem program_outcome (out : list string) (h : store) (rs : list reply)
    (sm : simulator) :
  (calm (take 9 rs) = true /\
   program {| stdout := out; sys := boot h rs sm |}
   = entry {| stdout := out; sys := boot h (drop 9 rs) sm |}) \/
  (exists n e,
     n < 9 /\ rs !! n = Some (Throws e) /\ calm (take n rs) = true /\
     program {| stdout := out; sys := boot h rs sm |}
     = (Raise e, {| stdout := out; sys := boot h (drop (S n) rs) sm |})).
Proof.
  rewrite program_run.
  destruct (prelude_run h rs sm) as [[Hc ->]|(n & e & Hn & Hrs & Hc & ->)].
  - by left.
  - right. by exists n, e.
Qed.

Lemma calm_lookup_Throws (rs : list reply) (n m : nat) (e : exn) :
  n < m -> rs !! n = Some (Throws e) -> calm (take m rs) = false.
Proof.
  revert n m. induction rs as [|r rs IH]; intros n m Hn Hrs; [done|].
  destruct m as [|m]; [lia|]. destruct n as [|n]; simpl in *.
  - by injection Hrs as ->.
  - destruct r; [|done]. apply (IH n m); [lia|done].
Qed.

(** X24: the program prints the line done., last and once, exactly when the
    calls of lines 5-14 all returned and main does not run forever; in every
    other run it prints nothing. *)
Theorem program_prints_done (out : list string) (h : store)
    (rs : list reply) (sm : simulator) :
  (calm (take 9 rs) = true /\
   fst (main (boot h (drop 9 rs) sm)) <> Diverge /\
   stdout (snd (program {| stdout := out; sys := boot h rs sm |}))
     = (out ++ [done_line])%list) \/
  ((calm (take 9 rs) = false \/
    fst (main (boot h (drop 9 rs) sm)) = Diverge) /\
   stdout (snd (program {| stdout := out; sys := boot h rs sm |})) = out).
Proof.
  rewrite program_run.
  destruct (prelude_run h rs sm) as [[Hc ->]|(n & e & Hn & Hrs & Hc & ->)].
  - rewrite entry_run.
    destruct (fst (main (boot h (drop 9 rs) sm))) as [a|e|] eqn:Hm.
    + left. done.
    + left. done.
    + right. split; [by right|done].
  - right. split; [|done]. left. by apply (calm_lookup_Throws rs n 9 e).
Qed.

(** ** main in a calm environment *)

Lemma steady_ext (sm : simulator) : steady sm ext (Ok tt) [].
Proof.
  intros w Hsm Hcalm. exists (set_script (tail (script w)) w). split.
  - unfold ext. f_equal. by destruct (script w) as [|[|e] rs].
  - simpl. rewrite app_nil_r. repeat split; try done. by apply calm_tail.
Qed.

Lemma steady_ret {A} (sm : simulator) (a : A) : steady sm (ret a) (Ok a) [].
Proof. intros w Hsm Hcalm. exists w. by rewrite app_nil_r. Qed.

Lemma steady_gets_sim {A} (sm : simulator) (g : simulator -> A) :
  steady sm (gets (fun w => g (sim w))) (Ok (g sm)) [].
Proof.
  intros w Hsm Hcalm. exists w. unfold gets. rewrite Hsm, app_nil_r. done.
Qed.

Lemma steady_emit (sm : simulator) (ev : event) :
  steady sm (emit ev) (Ok tt) [ev].
Proof. intros w Hsm Hcalm. eexists. split; [reflexivity|]. done. Qed.

Lemma steady_bind {A B} (sm : simulator) (m : M world A) (k : A -> M world B)
    (a : A) (r : result B) (evs1 evs2 : list event) :
  steady sm m (Ok a) evs1 -> steady sm (k a) r evs2 ->
  steady sm (bind m k) r (evs1 ++ evs2).
Proof.
  intros Hm Hk w Hsm Hcalm. unfold bind.
  destruct (Hm w Hsm Hcalm) as (w1 & -> & Hs1 & Hh1 & Hc1 & Ht1).
  destruct (Hk w1 Hs1 Hc1) as (w2 & -> & Hs2 & Hh2 & Hc2 & Ht2).
  exists w2. rewrite Ht2, Ht1, Hh2, Hh1, <- app_assoc. done.
Qed.

Lemma steady_random_choice_nil {A} (sm : simulator) :
  steady sm (random_choice (A := A) [])
    (Raise (IndexError "Cannot choose from an empty sequence")) [].
Proof. intros w Hsm Hcalm. exists w. by rewrite app_nil_r. Qed.

Lemma steady_random_choice_cons {A} (sm : simulator) (x : A) (l : list A) :
  steady sm (random_choice (x :: l))
    (Ok (default x ((x :: l) !! (random_pick sm mod length (x :: l))))) [].
Proof.
  intros w Hsm Hcalm. exists w. unfold random_choice, gets.
  rewrite Hsm, app_nil_r. done.
Qed.

Lemma steady_wait_for_ticks (sm : simulator) :
  steady sm wait_for_ticks Diverge [].
Proof.
  intros w Hsm Hcalm. unfold wait_for_ticks.
  assert (ticks (script w) = (Diverge, [])) as ->.
  { induction (script w) as [|[|e] rs IH]; simpl in *; [done| |done].
    by apply IH. }
  eexists. split; [reflexivity|]. simpl. by rewrite app_nil_r.
Qed.

Ltac steady :=
  first
    [ apply steady_ext
    | apply steady_ret
    | apply steady_gets_sim
    | apply steady_emit
    | apply steady_random_choice_cons
    | apply steady_random_choice_nil
    | match goal with
      | H : ?t = _ :: _ |- steady _ (random_choice ?t) _ _ =>
          rewrite H; apply steady_random_choice_cons
      | H : ?t = [] |- steady _ (random_choice ?t) _ _ =>
          rewrite H; apply steady_random_choice_nil
      end
    | apply steady_wait_for_ticks
    | eapply steady_bind; [steady|cbv beta; steady] ].

Lemma runs_events {A} (sm : simulator) (m : M frame A) (vs vs' vs'' : locals)
    (r : result A) (evs evs' : list event) :
  runs sm m vs r vs' evs -> vs' = vs'' -> evs = evs' ->
  runs sm m vs r vs'' evs'.
Proof. by intros H <- <-. Qed.

Lemma runs_lift {A} (sm : simulator) (m : M world A) (vs : locals)
    (r : result A) (evs : list event) :
  steady sm m r evs -> runs sm (lift m) vs r vs evs.
Proof.
  intros Hm s Hv Hsm Hcalm. unfold lift.
  destruct (Hm (env s) Hsm Hcalm) as (w' & -> & Hs & Hh & Hc & Ht).
  eexists. split; [reflexivity|]. done.
Qed.

Lemma runs_ret {A} (sm : simulator) (vs : locals) (a : A) :
  runs sm (ret a) vs (Ok a) vs [].
Proof. intros s Hv Hsm Hcalm. exists s. by rewrite app_nil_r. Qed.

Lemma runs_gets_vars {A} (sm : simulator) (vs : locals) (f : locals -> A) :
  runs sm (gets (fun s => f (vars s))) vs (Ok (f vs)) vs [].
Proof.
  intros s Hv Hsm Hcalm. exists s. unfold gets. rewrite Hv, app_nil_r. done.
Qed.

Lemma runs_assign (sm : simulator) (vs : locals) (f : locals -> locals) :
  runs sm (assign f) vs (Ok tt) (f vs) [].
Proof.
  intros s Hv Hsm Hcalm. eexists. split; [reflexivity|]. simpl.
  rewrite Hv, app_nil_r. done.
Qed.

Lemma runs_bind {A B} (sm : simulator) (m : M frame A) (k : A -> M frame B)
    (vs vs1 vs2 : locals) (a : A) (r : result B) (evs1 evs2 : list event) :
  runs sm m vs (Ok a) vs1 evs1 -> runs sm (k a) vs1 r vs2 evs2 ->
  runs sm (bind m k) vs r vs2 (evs1 ++ evs2).
Proof.
  intros Hm Hk s Hv Hsm Hcalm. unfold bind.
  destruct (Hm s Hv Hsm Hcalm) as (s1 & -> & Hv1 & Hs1 & Hh1 & Hc1 & Ht1).
  destruct (Hk s1 Hv1 Hs1 Hc1) as (s2 & -> & Hv2 & Hs2 & Hh2 & Hc2 & Ht2).
  exists s2. rewrite Ht2, Ht1, Hh2, Hh1, <- app_assoc. done.
Qed.

Lemma runs_bind_raise {A B} (sm : simulator) (m : M frame A)
    (k : A -> M frame B) (vs vs1 : locals) (e : exn) (evs : list event) :
  runs sm m vs (Raise e) vs1 evs -> runs sm (bind m k) vs (Raise e) vs1 evs.
Proof.
  intros Hm s Hv Hsm Hcalm. unfold bind.
  destruct (Hm s Hv Hsm Hcalm) as (s1 & -> & H). by exists s1.
Qed.

Ltac runs_leaf :=
  cbv beta;
  cbn [method ego_vehicle camera_main_rgb camera_main_semantic_segmentation
       camera_main_depth camera_3pv_rgb set_ego_vehicle set_camera_main_rgb
       set_camera_main_semantic_segmentation set_camera_main_depth
       set_camera_3pv_rgb unset];
  first
    [ apply runs_lift;
      unfold create_camera_blueprint, Transform, spawn_actor, listen,
        loginfo;
      steady
    | apply runs_gets_vars
    | apply runs_assign
    | apply runs_ret
    | eapply runs_bind; [runs_leaf|runs_leaf] ].

Ltac runs_step :=
  cbv beta;
  cbn [method ego_vehicle camera_main_rgb camera_main_semantic_segmentation
       camera_main_depth camera_3pv_rgb set_ego_vehicle set_camera_main_rgb
       set_camera_main_semantic_segmentation set_camera_main_depth
       set_camera_3pv_rgb unset];
  lazymatch goal with
  | |- runs _ (bind _ _) _ _ _ _ => eapply runs_bind; [runs_leaf|]
  end.

(* with spawn points, and colours if the blueprint has a colour, the try block
   spawns everything, registers the callbacks and waits forever *)
Lemma setup_and_run_calm (sm : simulator) :
  spawn_points sm <> [] ->
  (has_color sm = true -> recommended_values sm <> []) ->
  runs sm setup_and_run unset Diverge (stage_vars 5) session_trace.
Proof.
  intros Hpoints Hcolors. unfold setup_and_run.
  destruct (spawn_points sm) as [|p ps] eqn:Hp; [done|].
  destruct (has_color sm) eqn:Hc.
  - destruct (recommended_values sm) as [|c cs] eqn:Hv; [by destruct Hcolors|].
    eapply runs_events.
    { repeat first [runs_step | rewrite Hc | rewrite Hv | rewrite Hp].
      runs_leaf. }
    all: reflexivity.
  - eapply runs_events;
      [repeat first [runs_step | rewrite Hc | rewrite Hp]; runs_leaf
      |reflexivity|reflexivity].
Qed.

(* with no spawn point, or a colour attribute without recommended values,
   random.choice raises before anything is spawned *)
Lemma setup_and_run_nothing_to_choose (sm : simulator) :
  spawn_points sm = [] \/
  (has_color sm = true /\ recommended_values sm = []) ->
  runs sm setup_and_run unset
    (Raise (IndexError "Cannot choose from an empty sequence")) unset [].
Proof.
  intros Hnone. unfold setup_and_run.
  destruct (has_color sm) eqn:Hc;
    [destruct (recommended_values sm) as [|c cs] eqn:Hv|].
  - eapply runs_events.
    { repeat first [runs_step | rewrite Hc | apply runs_bind_raise].
      runs_leaf. }
    all: reflexivity.
  - destruct Hnone as [Hp|[_ ?]]; [|done].
    eapply runs_events.
    { repeat first [runs_step | rewrite Hc | apply runs_bind_raise].
      runs_leaf. }
    all: reflexivity.
  - destruct Hnone as [Hp|[? _]]; [|done].
    eapply runs_events.
    { repeat first [runs_step | rewrite Hc | apply runs_bind_raise].
      runs_leaf. }
    all: reflexivity.
Qed.

(** X20: when no call raises, the map has a spawn point and a vehicle
    blueprint with a colour has a recommended value, main spawns the vehicle
    and the four cameras, each camera attached to the vehicle, logs it,
    registers the four callbacks, in this order, and then waits for ticks
    forever; it destroys nothing and changes no frame buffer. *)
Theorem main_runs_forever (h : store) (rs : list reply) (sm : simulator) :
  calm rs = true ->
  spawn_points sm <> [] ->
  (has_color sm = true -> recommended_values sm <> []) ->
  fst (main (boot h rs sm)) = Diverge /\
  trace (snd (main (boot h rs sm))) = session_trace /\
  heap (snd (main (boot h rs sm))) = h.
Proof.
  intros Hcalm Hpoints Hcolors. unfold main, try_finally.
  destruct (setup_and_run_calm sm Hpoints Hcolors
              {| vars := unset; env := boot h rs sm |} eq_refl eq_refl Hcalm)
    as (s' & -> & _ & _ & Hh & _ & Ht).
  simpl in *. done.
Qed.

(** X21: when the map has no spawn point, or the vehicle blueprint has a
    colour attribute without any recommended value, random.choice raises
    IndexError before anything is spawned: main ends with that error, having
    spawned and destroyed nothing, and still logs that the vehicle and the
    sensors are destroyed. *)
Theorem main_with_nothing_to_choose (h : store) (rs : list reply)
    (sm : simulator) :
  calm rs = true ->
  spawn_points sm = [] \/
  (has_color sm = true /\ recommended_values sm = []) ->
  fst (main (boot h rs sm))
    = Raise (IndexError "Cannot choose from an empty sequence") /\
  trace (snd (main (boot h rs sm)))
    = [LogInfo "Ego vehicle and sensors destroyed"].
Proof.
  intros Hcalm Hnone. unfold main, try_finally.
  destruct (setup_and_run_nothing_to_choose sm Hnone
              {| vars := unset; env := boot h rs sm |} eq_refl eq_refl Hcalm)
    as (s' & -> & Hv & _ & _ & _ & Ht).
  destruct (teardown_run s') as (w1 & -> & Ht1).
  rewrite Hv in Ht1 |- *. simpl in *. rewrite Ht in Ht1. done.
Qed.

(** ** The published message *)

(** X22: when nothing fails, the one message publish_image publishes for a
    frame of the right size carries the frame's height and width, the
    encoding rgb8 and height * width * 3 bytes. *)
Theorem publish_image_message_shape (img : CarlaImage) (topic : string)
    (w : world) :
  length (heap w (raw_data img)) = height img * width img * 4 ->
  calm (script w) = true ->
  exists m,
    publishes (trace (snd (publish_image img topic w)))
      = (publishes (trace w) ++ [(topic, m)])%list /\
    msg_height m = height img /\ msg_width m = width img /\
    encoding m = "rgb8" /\
    length (data m) = height img * width img * 3.
Proof.
  intros Hlen Hcalm.
  destruct (publish_image_calm img topic w Hlen Hcalm)
    as (w' & -> & _ & _ & _ & Ht).
  exists (imgmsg (heap w) (rgb_view img) "rgb8"). cbn [snd].
  rewrite Ht, publishes_app. split; [done|]. repeat split.
  unfold imgmsg, rgb_view. cbn [data]. by apply tobytes_view_length.
Qed.

(** * Concrete runs of the further properties *)

Lemma publish_image_interrupted_publish_witness :
  length (heap (world_1x2 [Normal; Normal;
                           Throws (ROSInterruptException "shutdown")])
            (raw_data frame_1x2))
    = height frame_1x2 * width frame_1x2 * 4 /\
  script (world_1x2 [Normal; Normal;
                     Throws (ROSInterruptException "shutdown")])
    = Normal :: Normal :: Throws (ROSInterruptException "shutdown") :: [] /\
  exists w',
    publish_image frame_1x2 "camera_main_rgb"
        (world_1x2 [Normal; Normal;
                    Throws (ROSInterruptException "shutdown")])
      = (Ok tt, w') /\
    heap w' = heap (world_1x2 [Normal; Normal;
                               Throws (ROSInterruptException "shutdown")]) /\
    script w' = [] /\
    trace w' =
      (trace (world_1x2 [Normal; Normal;
                         Throws (ROSInterruptException "shutdown")]) ++
        [NewPublisher "camera_main_rgb";
         Publish "camera_main_rgb"
           (imgmsg (heap (world_1x2 [Normal; Normal;
                                     Throws (ROSInterruptException "shutdown")]))
              (rgb_view frame_1x2) "rgb8");
         LogErr (ROSInterruptException "shutdown")])%list.
Proof.
  split; [reflexivity|]. split; [reflexivity|].
  apply (publish_image_interrupted_publish frame_1x2 "camera_main_rgb"
           "shutdown" []); reflexivity.
Defined.

Lemma publish_image_interrupted_publisher_witness :
  length (heap (world_1x2 [Normal; Throws (ROSInterruptException "shutdown")])
            (raw_data frame_1x2))
    = height frame_1x2 * width frame_1x2 * 4 /\
  script (world_1x2 [Normal; Throws (ROSInterruptException "shutdown")])
    = Normal :: Throws (ROSInterruptException "shutdown") :: [] /\
  exists w',
    publish_image frame_1x2 "camera_main_rgb"
        (world_1x2 [Normal; Throws (ROSInterruptException "shutdown")])
      = (Ok tt, w') /\
    heap w'
      = heap (world_1x2 [Normal; Throws (ROSInterruptException "shutdown")]) /\
    script w' = [] /\
    publishes (trace w')
      = publishes
          (trace (world_1x2 [Normal;
                             Throws (ROSInterruptException "shutdown")])) /\
    trace w' =
      (trace (world_1x2 [Normal; Throws (ROSInterruptException "shutdown")]) ++
        [NewPublisher "camera_main_rgb";
         LogErr (ROSInterruptException "shutdown")])%list.
Proof.
  split; [reflexivity|]. split; [reflexivity|].
  apply (publish_image_interrupted_publisher frame_1x2 "camera_main_rgb"
           "shutdown" []); reflexivity.
Defined.

Lemma publish_image_conversion_error_propagates_witness :
  length (heap (world_1x2 [Throws (RuntimeError "no memory")])
            (raw_data frame_1x2))
    = height frame_1x2 * width frame_1x2 * 4 /\
  script (world_1x2 [Throws (RuntimeError "no memory")])
    = Throws (RuntimeError "no memory") :: [] /\
  is_CvBridgeError (RuntimeError "no memory") = false /\
  exists w',
    publish_image frame_1x2 "camera_main_rgb"
        (world_1x2 [Throws (RuntimeError "no memory")])
      = (Raise (RuntimeError "no memory"), w') /\
    heap w' = heap (world_1x2 [Throws (RuntimeError "no memory")]) /\
    script w' = [] /\
    trace w' = trace (world_1x2 [Throws (RuntimeError "no memory")]).
Proof.
  split; [reflexivity|]. split; [reflexivity|]. split; [reflexivity|].
  apply (publish_image_conversion_error_propagates frame_1x2
           "camera_main_rgb" (RuntimeError "no memory") []); reflexivity.
Defined.

Lemma publish_image_publish_error_propagates_witness :
  length (heap (world_1x2 [Normal; Normal; Throws (RuntimeError "closed")])
            (raw_data frame_1x2))
    = height frame_1x2 * width frame_1x2 * 4 /\
  script (world_1x2 [Normal; Normal; Throws (RuntimeError "closed")])
    = Normal :: Normal :: Throws (RuntimeError "closed") :: [] /\
  is_ROSInterruptException (RuntimeError "closed") = false /\
  exists w',
    publish_image frame_1x2 "camera_main_rgb"
        (world_1x2 [Normal; Normal; Throws (RuntimeError "closed")])
      = (Raise (RuntimeError "closed"), w') /\
    heap w'
      = heap (world_1x2 [Normal; Normal; Throws (RuntimeError "closed")]) /\
    script w' = [] /\
    trace w' =
      (trace (world_1x2 [Normal; Normal; Throws (RuntimeError "closed")]) ++
        [NewPublisher "camera_main_rgb";
         Publish "camera_main_rgb"
           (imgmsg (heap (world_1x2 [Normal; Normal;
                                     Throws (RuntimeError "closed")]))
              (rgb_view frame_1x2) "rgb8")])%list.
Proof.
  split; [reflexivity|]. split; [reflexivity|]. split; [reflexivity|].
  apply (publish_image_publish_error_propagates frame_1x2 "camera_main_rgb"
           (RuntimeError "closed") []); reflexivity.
Defined.

Lemma publish_image_and_viz_size_mismatch_witness :
  length (heap (world_1x2 [])
            (raw_data {| raw_data := 0; height := 1; width := 3 |}))
    <> 1 * 3 * 4 /\
  publish_image_and_viz whiten {| raw_data := 0; height := 1; width := 3 |}
      "camera_main_depth" "depth" (world_1x2 [])
    = (Raise (ValueError 8 [1; 3; 4]), world_1x2 []).
Proof.
  split; [simpl; lia|].
  apply (publish_image_and_viz_size_mismatch whiten
           {| raw_data := 0; height := 1; width := 3 |}
           "camera_main_depth" "depth" (world_1x2 [])).
  simpl. lia.
Defined.

Lemma publish_image_and_viz_convert_failure_witness :
  (("depth" = "semantic_segmentation" /\ Depth = CityScapesPalette) \/
   ("depth" = "depth" /\ Depth = Depth)) /\
  length (heap (world_1x2 [Normal; Normal; Normal;
                           Throws (RuntimeError "convert")])
            (raw_data frame_1x2))
    = height frame_1x2 * width frame_1x2 * 4 /\
  script (world_1x2 [Normal; Normal; Normal; Throws (RuntimeError "convert")])
    = Normal :: Normal :: Normal :: Throws (RuntimeError "convert") :: [] /\
  exists w',
    publish_image_and_viz whiten frame_1x2 "camera_main_depth" "depth"
        (world_1x2 [Normal; Normal; Normal; Throws (RuntimeError "convert")])
      = (Raise (RuntimeError "convert"), w') /\
    script w' = [] /\
    trace w' =
      (trace (world_1x2 [Normal; Normal; Normal;
                         Throws (RuntimeError "convert")]) ++
        [NewPublisher "camera_main_depth";
         Publish "camera_main_depth"
           (imgmsg (heap (world_1x2 [Normal; Normal; Normal;
                                     Throws (RuntimeError "convert")]))
              (rgb_view frame_1x2) "rgb8");
         Convert (raw_data frame_1x2) Depth])%list.
Proof.
  split; [right; split; reflexivity|]. split; [reflexivity|].
  split; [reflexivity|].
  apply (publish_image_and_viz_convert_failure whiten frame_1x2
           "camera_main_depth" "depth" Depth (RuntimeError "convert") []);
    [right; split; reflexivity|reflexivity|reflexivity].
Defined.

Lemma stores_1x2_agree_outside_alpha (k : nat) :
  k mod 4 <> 3 ->
  store_1x2 (raw_data frame_1x2) !! k
    = store_1x2_opaque (raw_data frame_1x2) !! k.
Proof.
  intros Hk.
  do 8 (destruct k as [|k]; [first [reflexivity | by destruct Hk]|]).
  reflexivity.
Defined.

Lemma get_cv_image_ignores_alpha_witness :
  length (store_1x2 (raw_data frame_1x2))
    = height frame_1x2 * width frame_1x2 * 4 /\
  length (store_1x2_opaque (raw_data frame_1x2))
    = height frame_1x2 * width frame_1x2 * 4 /\
  (forall k, k mod 4 <> 3 ->
     store_1x2 (raw_data frame_1x2) !! k
       = store_1x2_opaque (raw_data frame_1x2) !! k) /\
  exists a,
    get_cv_image store_1x2 frame_1x2 = Ok a /\
    get_cv_image store_1x2_opaque frame_1x2 = Ok a /\
    tobytes store_1x2 a = tobytes store_1x2_opaque a.
Proof.
  split; [reflexivity|]. split; [reflexivity|].
  split; [exact stores_1x2_agree_outside_alpha|].
  apply (get_cv_image_ignores_alpha store_1x2 store_1x2_opaque frame_1x2);
    [reflexivity|reflexivity|exact stores_1x2_agree_outside_alpha].
Defined.

Lemma get_cv_image_empty_frame_witness :
  height frame_0x0 * width frame_0x0 = 0 /\
  store_empty (raw_data frame_0x0) = [] /\
  exists a,
    get_cv_image store_empty frame_0x0 = Ok a /\
    shape a = [height frame_0x0; width frame_0x0; 3] /\
    tobytes store_empty a = [].
Proof.
  split; [reflexivity|]. split; [reflexivity|].
  apply (get_cv_image_empty_frame store_empty frame_0x0); reflexivity.
Defined.

Lemma publish_image_message_shape_witness :
  length (heap (world_1x2 []) (raw_data frame_1x2))
    = height frame_1x2 * width frame_1x2 * 4 /\
  calm (script (world_1x2 [])) = true /\
  exists m,
    publishes (trace (snd (publish_image frame_1x2 "camera_main_rgb"
                             (world_1x2 []))))
      = (publishes (trace (world_1x2 [])) ++ [("camera_main_rgb", m)])%list /\
    msg_height m = height frame_1x2 /\ msg_width m = width frame_1x2 /\
    encoding m = "rgb8" /\
    length (data m) = height frame_1x2 * width frame_1x2 * 3.
Proof.
  split; [reflexivity|]. split; [reflexivity|].
  apply (publish_image_message_shape frame_1x2 "camera_main_rgb"
           (world_1x2 [])); reflexivity.
Defined.

Lemma main_logs_destroyed_iff_teardown_completed_witness :
  fst (main (boot store_1x2 interrupted town)) <> Diverge /\
  (list.last (trace (snd (main (boot store_1x2 interrupted town))))
     = Some (LogInfo "Ego vehicle and sensors destroyed")
   <-> calm (take (length (created (vars (exit_state store_1x2 interrupted
                                            town))))
              (script (env (exit_state store_1x2 interrupted town)))) = true).
Proof.
  split; [vm_compute; discriminate|].
  apply (main_logs_destroyed_iff_teardown_completed store_1x2 interrupted
           town).
  vm_compute. discriminate.
Defined.

(* after a destroy call that raised, the line is missing *)
Example main_does_not_log_after_failed_destroy :
  list.last (trace (snd (main (boot store_1x2 simulator_gone town))))
    = Some (Destroy EgoVehicle).
Proof. vm_compute. reflexivity. Qed.

Lemma viz_sensors_listen_with_own_kind_witness :
  In (Listen CameraMainDepth
        (CbPublishImageAndViz "camera_main_depth" "depth"))
     (trace (snd (main (boot store_1x2 interrupted town)))) /\
  CameraMainDepth <> EgoVehicle /\
  (CameraMainDepth = CameraMainSemanticSegmentation \/
   CameraMainDepth = CameraMainDepth ->
   exists kind,
     CbPublishImageAndViz "camera_main_depth" "depth"
       = CbPublishImageAndViz ("camera_main_" +:+ kind) kind /\
     (CameraMainDepth = CameraMainSemanticSegmentation /\
      kind = "semantic_segmentation" \/
      CameraMainDepth = CameraMainDepth /\ kind = "depth")).
Proof.
  split; [vm_compute; tauto|].
  apply (viz_sensors_listen_with_own_kind store_1x2 interrupted town
           CameraMainDepth (CbPublishImageAndViz "camera_main_depth" "depth")).
  vm_compute. tauto.
Defined.

Lemma wait_for_ticks_ends_at_first_exception_witness :
  script (world_1x2 [Normal; Normal; Throws KeyboardInterrupt; Normal])
    = (repeat Normal 2 ++ Throws KeyboardInterrupt :: [Normal])%list /\
  wait_for_ticks (world_1x2 [Normal; Normal; Throws KeyboardInterrupt; Normal])
    = (Raise KeyboardInterrupt,
       set_script [Normal]
         (world_1x2 [Normal; Normal; Throws KeyboardInterrupt; Normal])).
Proof.
  split; [reflexivity|].
  apply (wait_for_ticks_ends_at_first_exception
           (world_1x2 [Normal; Normal; Throws KeyboardInterrupt; Normal])
           2 KeyboardInterrupt [Normal]).
  reflexivity.
Defined.

Lemma entry_interrupt_exits_cleanly_witness :
  fst (setup_and_run (start store_1x2 interrupted town))
    = Raise KeyboardInterrupt /\
  is_KeyboardInterrupt KeyboardInterrupt = true /\
  calm (take (length (created (vars (exit_state store_1x2 interrupted town))))
          (script (env (exit_state store_1x2 interrupted town)))) = true /\
  exists w',
    entry {| stdout := []; sys := boot store_1x2 interrupted town |}
      = (Ok tt, {| stdout := ([] ++ [done_line])%list; sys := w' |}) /\
    destroyed (trace w') = spawned (trace w').
Proof.
  split; [vm_compute; reflexivity|]. split; [reflexivity|].
  split; [vm_compute; reflexivity|].
  apply (entry_interrupt_exits_cleanly [] store_1x2 interrupted town
           KeyboardInterrupt);
    [vm_compute; reflexivity|reflexivity|vm_compute; reflexivity].
Defined.

Lemma entry_failing_destroy_is_not_swallowed_witness :
  fst (setup_and_run (start store_1x2 simulator_gone town))
    = Raise KeyboardInterrupt /\
  0 < length (created (vars (exit_state store_1x2 simulator_gone town))) /\
  script (env (exit_state store_1x2 simulator_gone town)) !! 0
    = Some (Throws (RuntimeError "time-out")) /\
  calm (take 0 (script (env (exit_state store_1x2 simulator_gone town))))
    = true /\
  is_KeyboardInterrupt (RuntimeError "time-out") = false /\
  exists w',
    entry {| stdout := []; sys := boot store_1x2 simulator_gone town |}
      = (Raise (RuntimeError "time-out"),
         {| stdout := ([] ++ [done_line])%list; sys := w' |}).
Proof.
  split; [vm_compute; reflexivity|]. split; [vm_compute; lia|].
  split; [vm_compute; reflexivity|]. split; [reflexivity|].
  split; [reflexivity|].
  apply (entry_failing_destroy_is_not_swallowed [] store_1x2 simulator_gone
           town KeyboardInterrupt (RuntimeError "time-out") 0);
    [vm_compute; reflexivity|vm_compute; lia|vm_compute; reflexivity
    |reflexivity|reflexivity].
Defined.

Lemma main_runs_forever_witness :
  calm (repeat Normal 100) = true /\
  spawn_points town <> [] /\
  (has_color town = true -> recommended_values town <> []) /\
  fst (main (boot store_1x2 (repeat Normal 100) town)) = Diverge /\
  trace (snd (main (boot store_1x2 (repeat Normal 100) town)))
    = session_trace /\
  heap (snd (main (boot store_1x2 (repeat Normal 100) town))) = store_1x2.
Proof.
  split; [reflexivity|]. split; [discriminate|]. split; [discriminate|].
  apply (main_runs_forever store_1x2 (repeat Normal 100) town);
    [reflexivity|discriminate|discriminate].
Defined.

Lemma main_with_nothing_to_choose_witness :
  calm (repeat Normal 100) = true /\
  (spawn_points empty_town = [] \/
   (has_color empty_town = true /\ recommended_values empty_town = [])) /\
  fst (main (boot store_1x2 (repeat Normal 100) empty_town))
    = Raise (IndexError "Cannot choose from an empty sequence") /\
  trace (snd (main (boot store_1x2 (repeat Normal 100) empty_town)))
    = [LogInfo "Ego vehicle and sensors destroyed"].
Proof.
  split; [reflexivity|]. split; [left; reflexivity|].
  apply (main_with_nothing_to_choose store_1x2 (repeat Normal 100)
           empty_town);
    [reflexivity|left; reflexivity].
Defined.
